(** * random_file_gen.ts: a shallow embedding and its verified properties

    The program under study is the single script
    [.github/workflows/random_file_gen.ts].  It parses a handful of
    command-line flags, then creates [count] files of random letters in
    randomly nested directories.

    Modelling choices, all visible in the definitions below:
    - a JavaScript string is a [string] (code units below 256);
    - an integer-valued JavaScript number is a [Z]; [NaN] is the [None] of
      an [option Z] ([parseInt] is the only producer of [NaN] here).  The
      embedding is exact while the integers stay below 2^53 in magnitude:
      the rounding of larger values to a double, and [Infinity] for a
      token of some 309 digits or more, are not modelled;
    - strings have no maximum length: the [RangeError] that the engine
      raises when a string grows beyond its limit is not modelled, so the
      only error a run can throw here is a failed filesystem call;
    - [Math.random()] returns a rational of [Q]; the contract of the host
      (a value in [0,1)) is the predicate [random_in_unit];
    - the host (working directory, [path.resolve], [path.relative], the two
      random sources and the success or failure of each filesystem call) is
      the record [Host];
    - effects are threaded through a small monad [M]: the cursors into the
      host's streams are the state, the console and filesystem operations
      are emitted as a list of [Event]s, and a computation ends with a
      value, a thrown error or [process.exit]. *)

From Stdlib Require Import ZArith QArith Qround List String Ascii Bool Lia.
From Stdlib Require Import Strings.Byte DecimalString.
Import ListNotations.

Local Open Scope string_scope.
Local Open Scope Z_scope.

(* ================================================================== *)
(** ** JavaScript primitives used by the script *)
(* ================================================================== *)

Module JS.

(** One-character strings that cannot be written inside a literal. *)
Definition nl : string := String (ascii_of_nat 10) EmptyString.
Definition dq : string := String (ascii_of_nat 34) EmptyString.

(** Truthiness of a string: only the empty string is falsy. *)
Definition truthy_str (s : string) : bool :=
  match s with EmptyString => false | String _ _ => true end.

(** [StrWhiteSpaceChar] of ECMAScript, restricted to code units below
    256: TAB, LF, VT, FF, CR, SP and NBSP. *)
Definition isWhite (c : ascii) : bool :=
  let n := nat_of_ascii c in
  ((9 <=? n)%nat && (n <=? 13)%nat) || (n =? 32)%nat || (n =? 160)%nat.

Definition isDigit (c : ascii) : bool :=
  let n := nat_of_ascii c in (48 <=? n)%nat && (n <=? 57)%nat.

Definition digitVal (c : ascii) : Z := Z.of_nat (nat_of_ascii c) - 48.

Fixpoint skipWhite (s : string) : string :=
  match s with
  | String c r => if isWhite c then skipWhite r else s
  | EmptyString => s
  end.

(** Longest prefix of decimal digits, read left to right.  [acc] is
    [None] until the first digit has been seen. *)
Fixpoint readDigits (s : string) (acc : option Z) : option Z :=
  match s with
  | String c r =>
      if isDigit c
      then readDigits r (Some (10 * match acc with Some a => a | None => 0 end
                               + digitVal c))
      else acc
  | EmptyString => acc
  end.

(** [parseInt(s, 10)]: leading white space is skipped, one sign is
    accepted, the longest digit prefix is the value, and no digit at all
    is [NaN].  With radix 10 no [0x] prefix is recognised. *)
Definition parseInt (s : string) : option Z :=
  match skipWhite s with
  | String "-" r => option_map Z.opp (readDigits r None)
  | String "+" r => readDigits r None
  | t => readDigits t None
  end.

(** [p || d] on numbers: [NaN], [0] and [-0] are falsy. *)
Definition orNum (p : option Z) (d : Z) : Z :=
  match p with
  | Some v => if v =? 0 then d else v
  | None => d
  end.

(** Number to string for an integer value, as in a template literal. *)
Definition showZ (z : Z) : string := NilZero.string_of_int (Z.to_int z).

(** [s.charAt(i)]: the one-character string at [i], or the empty string. *)
Definition charAt (s : string) (i : Z) : string :=
  if i <? 0 then EmptyString
  else match String.get (Z.to_nat i) s with
       | Some c => String c EmptyString
       | None => EmptyString
       end.

(** [s.slice(0, n)] for a non-negative constant [n]. *)
Definition slice0 (n : nat) (s : string) : string := String.substring 0 n s.

(** [arr[i]] for an integer index: [None] is [undefined]. *)
Definition index {A} (arr : list A) (i : Z) : option A :=
  if i <? 0 then None else nth_error arr (Z.to_nat i).

(** A possibly undefined string inside a template literal. *)
Definition showStr (o : option string) : string :=
  match o with Some s => s | None => "undefined" end.

(** [o === s] for a possibly undefined string [o]. *)
Definition strictEq (o : option string) (s : string) : bool :=
  match o with Some x => String.eqb x s | None => false end.

(** [Math.floor(x)] on a rational. *)
Definition floor (x : Q) : Z := Qfloor x.

End JS.

(* ================================================================== *)
(** ** Host, effects and the monad of the script *)
(* ================================================================== *)

(** What the script takes from Node and the operating system. *)
Record Host := mkHost {
  cwd : string;                               (* process.cwd() *)
  path_resolve : string -> string -> string;  (* path.resolve(a, b) *)
  path_relative : string -> string -> string; (* path.relative(a, b) *)
  random : nat -> Q;                          (* successive Math.random() *)
  randomByte : nat -> byte;                   (* successive crypto bytes *)
  fs_ok : nat -> bool                         (* does the n-th fs call succeed *)
}.

(** Cursors into the three streams of the host. *)
Record Cursor := mkCursor { rnd_i : nat; byte_i : nat; fs_i : nat }.

Definition start : Cursor := mkCursor 0 0 0.

Inductive FsError :=
| MkdirFailed (p : string)
| WriteFailed (p : string).

Inductive Event :=
| ELog (line : string)               (* console.log *)
| EError (e : FsError)               (* console.error("Error:", err) *)
| EMkdir (p : string)                (* fs.mkdir(p, {recursive: true}) *)
| EWrite (p : string) (data : string). (* fs.writeFile(p, data, "utf8") *)

Inductive Res (A : Type) :=
| Val (a : A)
| Thrown (e : FsError)
| Exited (code : Z).
Arguments Val {A} a.
Arguments Thrown {A} e.
Arguments Exited {A} code.

Definition M (A : Type) : Type := Cursor -> Res A * Cursor * list Event.

Definition ret {A} (a : A) : M A := fun c => (Val a, c, []).

Definition bind {A B} (m : M A) (f : A -> M B) : M B :=
  fun c =>
    match m c with
    | (Val a, c1, ev1) =>
        match f a c1 with (r, c2, ev2) => (r, c2, (ev1 ++ ev2)%list) end
    | (Thrown e, c1, ev1) => (Thrown e, c1, ev1)
    | (Exited k, c1, ev1) => (Exited k, c1, ev1)
    end.

Notation "x <- m ;; k" := (bind m (fun x => k))
  (at level 61, m at next level, right associativity).

Definition console_log (line : string) : M unit :=
  fun c => (Val tt, c, [ELog line]).

Definition process_exit {A} (code : Z) : M A :=
  fun c => (Exited code, c, []).

(* ================================================================== *)
(** ** The script *)
(* ================================================================== *)

Record Options := mkOptions {
  outDir : string;
  count : Z;
  minLen : Z;
  maxLen : Z;
  maxDepth : Z
}.

Definition set_outDir (o : Options) (v : string) : Options :=
  mkOptions v (count o) (minLen o) (maxLen o) (maxDepth o).
Definition set_count (o : Options) (v : Z) : Options :=
  mkOptions (outDir o) v (minLen o) (maxLen o) (maxDepth o).
Definition set_minLen (o : Options) (v : Z) : Options :=
  mkOptions (outDir o) (count o) v (maxLen o) (maxDepth o).
Definition set_maxLen (o : Options) (v : Z) : Options :=
  mkOptions (outDir o) (count o) (minLen o) v (maxDepth o).
Definition set_maxDepth (o : Options) (v : Z) : Options :=
  mkOptions (outDir o) (count o) (minLen o) (maxLen o) v.

Definition exts : list string := [".html"; ".js"; ".css"; ".txt"].
Definition letters : string :=
  "abcdefghijklmnopqrstuvwxyzABCDEFGHIJKLMNOPQRSTUVWXYZ".

(** [path.join(base, ...parts)] on the arguments the script passes: [base]
    is already normalised and every part is a plain file or directory name,
    so joining is concatenation with one separator (none after a base that
    ends with one, the root). *)
Fixpoint endsWithSep (s : string) : bool :=
  match s with
  | EmptyString => false
  | String c EmptyString => Ascii.eqb c "/"
  | String _ r => endsWithSep r
  end.

Definition joinSeg (acc part : string) : string :=
  if endsWithSep acc then acc ++ part else acc ++ "/" ++ part.

Definition path_join (base : string) (parts : list string) : string :=
  fold_left joinSeg parts base.

(** [Buffer.toString("hex")]. *)
Definition hexDigit (n : N) : ascii :=
  match String.get (N.to_nat n) "0123456789abcdef" with
  | Some c => c
  | None => "0"%char
  end.

Definition hexOfByte (b : byte) : string :=
  String (hexDigit (Byte.to_N b / 16))
    (String (hexDigit (Byte.to_N b mod 16)) EmptyString).

Fixpoint toHex (bs : list byte) : string :=
  match bs with
  | [] => EmptyString
  | b :: r => hexOfByte b ++ toHex r
  end.

(** The text of [usage()], as a function of the four defaults it
    interpolates. *)
Definition usage_text (dcount dmin dmax ddepth : Z) : string :=
  JS.nl ++
  "Usage: ts-node make-random-files.ts [options]" ++ JS.nl ++
  JS.nl ++
  "Options:" ++ JS.nl ++
  "  --count N     Number of files to create (default: " ++ JS.showZ dcount ++ ")" ++ JS.nl ++
  "  --min N       Minimum characters per file content (default: " ++ JS.showZ dmin ++ ")" ++ JS.nl ++
  "  --max N       Maximum characters per file content (default: " ++ JS.showZ dmax ++ ")" ++ JS.nl ++
  "  --out DIR     Output base directory (default: ./dist)" ++ JS.nl ++
  "  --depth N     Max random directory depth (default: " ++ JS.showZ ddepth ++ ")" ++ JS.nl ++
  "  --help, -h    Show this help" ++ JS.nl.

(** The three templates of [makeRandomFile], as functions of the token and
    of the payload. *)
Definition html_template (title content : string) : string :=
  "<!doctype html>" ++ JS.nl ++ "<html>" ++ JS.nl ++ "<head>" ++ JS.nl ++
  "  <meta charset=" ++ JS.dq ++ "utf-8" ++ JS.dq ++ ">" ++ JS.nl ++
  "  <title>" ++ title ++ "</title>" ++ JS.nl ++ "</head>" ++ JS.nl ++
  "<body>" ++ JS.nl ++ content ++ JS.nl ++ "</body>" ++ JS.nl ++
  "</html>" ++ JS.nl.

Definition js_template (tag content : string) : string :=
  "// " ++ tag ++ JS.nl ++ "(function(){" ++ JS.nl ++
  "  const s = " ++ JS.dq ++ content ++ JS.dq ++ ";" ++ JS.nl ++
  "  // random content" ++ JS.nl ++ "  return s.length;" ++ JS.nl ++
  "})();" ++ JS.nl.

Definition css_template (tag content : string) : string :=
  "/* " ++ tag ++ " */" ++ JS.nl ++
  "body::after { content: " ++ JS.dq ++ JS.slice0 30 content ++ JS.dq ++
  "; }" ++ JS.nl.

(** The flag dispatch of one iteration of the parsing loop. [rest] is
    [argv] after position [i]; [argv[i + 1]] is its head when there is one. *)
Definition hasValue (rest : list string) : bool :=
  match rest with
  | v :: _ => JS.truthy_str v
  | [] => false
  end.

Definition nextArg (rest : list string) : string :=
  match rest with
  | v :: _ => v
  | [] => EmptyString
  end.

Inductive Action :=
| TakeValue (o : Options)   (* a flag consumed argv[++i] *)
| Help                      (* --help or -h *)
| Skip.                     (* no branch applies *)

Section Script.

Variable host : Host.

Definition Math_random : M Q :=
  fun c => (Val (random host (rnd_i c)),
            mkCursor (S (rnd_i c)) (byte_i c) (fs_i c), []).

Definition nextByte : M byte :=
  fun c => (Val (randomByte host (byte_i c)),
            mkCursor (rnd_i c) (S (byte_i c)) (fs_i c), []).

Definition fs_call (ev : Event) (err : FsError) : M unit :=
  fun c =>
    let c' := mkCursor (rnd_i c) (byte_i c) (S (fs_i c)) in
    if fs_ok host (fs_i c) then (Val tt, c', [ev]) else (Thrown err, c', []).

Definition fs_mkdir (p : string) : M unit :=
  fs_call (EMkdir p) (MkdirFailed p).

Definition fs_writeFile (p data : string) : M unit :=
  fs_call (EWrite p data) (WriteFailed p).

Fixpoint randomBytes (n : nat) : M (list byte) :=
  match n with
  | O => ret []
  | S k => b <- nextByte ;; bs <- randomBytes k ;; ret (b :: bs)
  end.

Definition DEFAULTS : Options :=
  mkOptions (path_resolve host (cwd host) "dist") 20 50 500 3.

(** [rndInt]: inclusive min, inclusive max. *)
Definition rndInt (min max : Z) : M Z :=
  r <- Math_random ;;
  ret (JS.floor (r * inject_Z (max - min + 1)) + min).

Definition rndHex (len : nat) : M string :=
  bs <- randomBytes (Nat.div (len + 1) 2) ;;
  ret (JS.slice0 len (toHex bs)).

Fixpoint rndString_loop (n : nat) (out : string) : M string :=
  match n with
  | O => ret out
  | S k =>
      r <- Math_random ;;
      rndString_loop k
        (out ++ JS.charAt letters
                  (JS.floor (r * inject_Z (Z.of_nat (String.length letters)))))
  end.

(** The loop [for (i = 0; i < len; i++)] runs [Z.to_nat len] times. *)
Definition rndString (len : Z) : M string :=
  rndString_loop (Z.to_nat len) EmptyString.

Definition pick {A} (arr : list A) : M (option A) :=
  r <- Math_random ;;
  ret (JS.index arr (JS.floor (r * inject_Z (Z.of_nat (List.length arr))))).

Fixpoint makeRandomDir_loop (n : nat) (parts : list string)
  : M (list string) :=
  match n with
  | O => ret parts
  | S k => p <- rndHex 6 ;; makeRandomDir_loop k (parts ++ [p])%list
  end.

Definition makeRandomDir (base : string) (maxDepth : Z) : M string :=
  depth <- rndInt 1 (Z.max 1 maxDepth) ;;
  parts <- makeRandomDir_loop (Z.to_nat depth) [] ;;
  let dir := path_join base parts in
  _ <- fs_mkdir dir ;;
  ret dir.

(** Lines 64 to 72: the content written for an extension. *)
Definition wrapContent (ext : option string) (content : string) : M string :=
  if JS.strictEq ext ".html" then
    t <- rndHex 6 ;; ret (html_template t content)
  else if JS.strictEq ext ".js" then
    t <- rndHex 6 ;; ret (js_template t content)
  else if JS.strictEq ext ".css" then
    t <- rndHex 6 ;; ret (css_template t content)
  else ret content.

Definition makeRandomFile (dir : string) (minLen maxLen : Z) : M string :=
  ext <- pick exts ;;
  h <- rndHex 8 ;;
  let name := "file_" ++ h ++ JS.showStr ext in
  len <- rndInt minLen maxLen ;;
  content <- rndString len ;;
  finalContent <- wrapContent ext content ;;
  let fullPath := path_join dir [name] in
  _ <- fs_writeFile fullPath finalContent ;;
  ret fullPath.

Definition usage : string :=
  usage_text (count DEFAULTS) (minLen DEFAULTS) (maxLen DEFAULTS)
             (maxDepth DEFAULTS).

Definition dispatch (a : string) (rest : list string) (opts : Options)
  : Action :=
  if String.eqb a "--count" && hasValue rest then
    TakeValue (set_count opts
                 (JS.orNum (JS.parseInt (nextArg rest)) (count opts)))
  else if String.eqb a "--min" && hasValue rest then
    TakeValue (set_minLen opts
                 (JS.orNum (JS.parseInt (nextArg rest)) (minLen opts)))
  else if String.eqb a "--max" && hasValue rest then
    TakeValue (set_maxLen opts
                 (JS.orNum (JS.parseInt (nextArg rest)) (maxLen opts)))
  else if String.eqb a "--out" && hasValue rest then
    TakeValue (set_outDir opts (path_resolve host (cwd host) (nextArg rest)))
  else if String.eqb a "--depth" && hasValue rest then
    TakeValue (set_maxDepth opts
                 (JS.orNum (JS.parseInt (nextArg rest)) (maxDepth opts)))
  else if String.eqb a "--help" || String.eqb a "-h" then Help
  else Skip.

(** The parsing loop of [main], from position [i] on: [argv] is the list
    of the arguments from [i]. *)
Fixpoint parseArgs (argv : list string) (opts : Options) : M Options :=
  match argv with
  | [] => ret opts
  | a :: rest =>
      match dispatch a rest opts with
      | TakeValue o =>
          match rest with
          | _ :: rest' => parseArgs rest' o
          | [] => ret o
          end
      | Help => _ <- console_log usage ;; process_exit 0
      | Skip => parseArgs rest opts
      end
  end.

(** The two lines under [// sanity]. *)
Definition sanity (opts : Options) : Options :=
  let o1 := if minLen opts <? 0 then set_minLen opts 0 else opts in
  if maxLen o1 <? minLen o1 then set_maxLen o1 (minLen o1) else o1.

(** The creation loop runs [Z.to_nat count] times. *)
Fixpoint create_loop (opts : Options) (n : nat) (created : list string)
  : M (list string) :=
  match n with
  | O => ret created
  | S k =>
      dir <- makeRandomDir (outDir opts) (maxDepth opts) ;;
      file <- makeRandomFile dir (minLen opts) (maxLen opts) ;;
      create_loop opts k (created ++ [file])%list
  end.

Fixpoint report (created : list string) : M unit :=
  match created with
  | [] => ret tt
  | f :: r =>
      _ <- console_log (" - " ++ path_relative host (cwd host) f) ;;
      report r
  end.

Definition main (argv : list string) : M unit :=
  parsed <- parseArgs argv DEFAULTS ;;
  let opts := sanity parsed in
  _ <- fs_mkdir (outDir opts) ;;
  created <- create_loop opts (Z.to_nat (count opts)) [] ;;
  _ <- console_log ("Created " ++ JS.showZ (Z.of_nat (List.length created))
                     ++ " files under " ++ outDir opts) ;;
  report created.

(** The process: [main().catch(...)] and the exit code. *)
Record Outcome := mkOutcome { exit_code : Z; events : list Event }.

Definition run (argv : list string) : Outcome :=
  match main argv start with
  | (Val _, _, ev) => mkOutcome 0 ev
  | (Thrown e, _, ev) => mkOutcome 1 (ev ++ [EError e])%list
  | (Exited k, _, ev) => mkOutcome k ev
  end.

End Script.

(* ================================================================== *)
(** ** A concrete host, for running the script *)
(* ================================================================== *)

Module Demo.

Definition resolve (base arg : string) : string :=
  match arg with
  | String "/" _ => arg
  | _ => base ++ "/" ++ arg
  end.

Fixpoint stripPrefix (p s : string) : string :=
  match p, s with
  | String a p', String b s' => if Ascii.eqb a b then stripPrefix p' s' else s
  | _, _ => s
  end.

Definition relative (base p : string) : string :=
  match stripPrefix base p with
  | String "/" r => r
  | r => r
  end.

(** A fixed sequence of values in [0,1): 0, 7/10, 4/10, 1/10, ... *)
Definition rand (n : nat) : Q := (Z.of_nat ((7 * n) mod 10)) # 10.

Definition rbyte (n : nat) : byte :=
  match Byte.of_nat ((37 * n + 11) mod 256) with
  | Some b => b
  | None => x00
  end.

Definition host : Host :=
  mkHost "/work" resolve relative rand rbyte (fun _ => true).

(** The same host with a filesystem that refuses every call. *)
Definition readonly : Host :=
  mkHost "/work" resolve relative rand rbyte (fun _ => false).

(** Options as parsed from [--min -5 --max -9]. *)
Definition reversed : Options := mkOptions "/work/dist" 20 (-5) (-9) 3.

End Demo.

(** The flags of the command line. *)
Definition numericFlags : list string := ["--count"; "--min"; "--max"; "--depth"].
Definition valueFlags : list string := "--out" :: numericFlags.
Definition helpFlags : list string := ["--help"; "-h"].
Definition allFlags : list string := (valueFlags ++ helpFlags)%list.

(** A token that [parseInt(.., 10) || d] replaces by [d]. *)
Definition falsyNumber (tok : string) : Prop :=
  JS.parseInt tok = None \/ JS.parseInt tok = Some 0.

(** The contract of [Math.random()]: a value in [0,1). *)
Definition random_in_unit (h : Host) : Prop :=
  forall n, (0 <= random h n)%Q /\ (random h n < 1)%Q.

(** A run in which no filesystem call fails. *)
Definition fs_always_ok (h : Host) : Prop := forall n, fs_ok h n = true.

(** Character classes and strings made of one class. *)
Definition isLetter (c : ascii) : bool :=
  let n := nat_of_ascii c in
  ((65 <=? n)%nat && (n <=? 90)%nat) || ((97 <=? n)%nat && (n <=? 122)%nat).

Definition isHexChar (c : ascii) : bool :=
  let n := nat_of_ascii c in
  ((48 <=? n)%nat && (n <=? 57)%nat) || ((97 <=? n)%nat && (n <=? 102)%nat).

Fixpoint allChars (p : ascii -> bool) (s : string) : bool :=
  match s with
  | EmptyString => true
  | String c r => p c && allChars p r
  end.

(** A random token of the script: [n] lower-case hexadecimal characters. *)
Definition hexToken (n : nat) (s : string) : Prop :=
  String.length s = n /\ allChars isHexChar s = true.

(** The components of a path: the pieces between separators, the empty
    ones dropped. *)
Fixpoint splitSep (s : string) : list string :=
  match s with
  | EmptyString => [EmptyString]
  | String c r =>
      if Ascii.eqb c "/" then EmptyString :: splitSep r
      else match splitSep r with
           | h :: t => String c h :: t
           | [] => [String c EmptyString]
           end
  end.

Definition segments (s : string) : list string :=
  filter JS.truthy_str (splitSep s).

Definition isNameChar (c : ascii) : bool := negb (Ascii.eqb c "/").

(** A file or directory name: not empty and free of separators. *)
Definition plainName (s : string) : Prop :=
  JS.truthy_str s = true /\ allChars isNameChar s = true.

(** Lines 64 to 76 of [makeRandomFile]: what follows the four draws. *)
Definition makeRandomFile_emit (host : Host) (dir : string)
    (ext : option string) (h content : string) : M string :=
  finalContent <- wrapContent host ext content ;;
  let fullPath := path_join dir ["file_" ++ h ++ JS.showStr ext] in
  _ <- fs_writeFile host fullPath finalContent ;;
  ret fullPath.

(** The format contract of the four extensions, written out from the
    description of the formats and independently of the templates of
    [makeRandomFile]: every file is given as its lines, each ended by a
    line feed. *)
Fixpoint unlines (ls : list string) : string :=
  match ls with
  | [] => EmptyString
  | l :: r => l ++ String (ascii_of_nat 10) (unlines r)
  end.

Definition quoted (s : string) : string :=
  String (ascii_of_nat 34) (s ++ String (ascii_of_nat 34) EmptyString).

(** The first [n] characters of a string (all of it when it is shorter). *)
Fixpoint firstChars (n : nat) (s : string) : string :=
  match n, s with
  | S k, String c r => String c (firstChars k r)
  | _, _ => EmptyString
  end.

(** A minimal document: doctype, head with charset and title, and a body
    that is the payload on a line of its own. *)
Definition markupDocument (title payload : string) : string :=
  unlines [ "<!doctype html>";
            "<html>";
            "<head>";
            "  <meta charset=" ++ quoted "utf-8" ++ ">";
            "  <title>" ++ title ++ "</title>";
            "</head>";
            "<body>";
            payload;
            "</body>";
            "</html>" ].

(** A comment line, then a function that is called on the spot and whose
    only string literal is the payload. *)
Definition scriptFunction (tag payload : string) : string :=
  unlines [ "// " ++ tag;
            "(function(){";
            "  const s = " ++ quoted payload ++ ";";
            "  // random content";
            "  return s.length;";
            "})();" ].

(** A comment line, then one rule on [body::after] whose [content] is the
    first 30 characters of the payload. *)
Definition styleRule (tag payload : string) : string :=
  unlines [ "/* " ++ tag ++ " */";
            "body::after { content: " ++ quoted (firstChars 30 payload) ++ "; }" ].

(** [fileContract tag payload ext data]: [data] is what a file of extension
    [ext] must contain for the random token [tag] and the payload. *)
Inductive fileContract (tag payload : string) : string -> string -> Prop :=
| MarkupFile : fileContract tag payload ".html" (markupDocument tag payload)
| ScriptFile : fileContract tag payload ".js" (scriptFunction tag payload)
| StyleFile : fileContract tag payload ".css" (styleRule tag payload)
| TextFile : fileContract tag payload ".txt" payload.

(** One iteration of the creation loop of [main]. *)
Record Item := mkItem { it_dir : string; it_file : string; it_data : string }.

Definition item_events (it : Item) : list Event :=
  [EMkdir (it_dir it); EWrite (it_file it) (it_data it)].

(** [iterations host opts c items c']: from cursor [c], the path generator
    and then the file generator are run once per item, in order, each
    succeeding, and the cursor ends at [c']. *)
Inductive iterations (host : Host) (opts : Options)
  : Cursor -> list Item -> Cursor -> Prop :=
| iter_done c : iterations host opts c [] c
| iter_step c c1 c2 c3 it items :
    makeRandomDir host (outDir opts) (maxDepth opts) c
      = (Val (it_dir it), c1, [EMkdir (it_dir it)]) ->
    makeRandomFile host (it_dir it) (minLen opts) (maxLen opts) c1
      = (Val (it_file it), c2, [EWrite (it_file it) (it_data it)]) ->
    iterations host opts c2 items c3 ->
    iterations host opts c (it :: items) c3.

(** The lines printed after the loop. *)
Definition summary_events (host : Host) (opts : Options) (created : list string)
  : list Event :=
  ELog ("Created " ++ JS.showZ (Z.of_nat (List.length created))
        ++ " files under " ++ outDir opts)
  :: map (fun f => ELog (" - " ++ path_relative host (cwd host) f)) created.

Definition after_fs_call (c : Cursor) : Cursor :=
  mkCursor (rnd_i c) (byte_i c) (S (fs_i c)).

Definition isWrite (e : Event) : bool :=
  match e with EWrite _ _ => true | _ => false end.

(** Runs of the generators on the concrete host, kept as data. *)
Module DemoRun.

Definition dirRun : Res string * Cursor * list Event :=
  Eval vm_compute in makeRandomDir Demo.host "/work/dist" 3 start.

Definition dir : string :=
  match dirRun with (Val d, _, _) => d | _ => EmptyString end.

Definition afterDir : Cursor := snd (fst dirRun).

Definition fileRun : Res string * Cursor * list Event :=
  Eval vm_compute in makeRandomFile Demo.host dir 3 5 afterDir.

Definition file : string :=
  match fileRun with (Val f, _, _) => f | _ => EmptyString end.

End DemoRun.

(** Filesystem events, and the path an event touches. *)
Definition isFsEvent (e : Event) : bool :=
  match e with
  | EMkdir _ | EWrite _ _ => true
  | ELog _ | EError _ => false
  end.

(** [fsUnder base e]: [e] is a filesystem call on a path whose components
    extend those of [base]. *)
Definition fsUnder (base : string) (e : Event) : Prop :=
  match e with
  | EMkdir p | EWrite p _ =>
      exists rest, segments p = (segments base ++ rest)%list
  | ELog _ | EError _ => False
  end.

(** [underBase base e]: if [e] is a filesystem call, its path lies under
    [base]. *)
Definition underBase (base : string) (e : Event) : Prop :=
  match e with
  | EMkdir p | EWrite p _ =>
      exists rest, segments p = (segments base ++ rest)%list
  | ELog _ | EError _ => True
  end.

Fixpoint countChar (x : ascii) (s : string) : nat :=
  match s with
  | EmptyString => O
  | String c r => ((if Ascii.eqb c x then 1 else 0) + countChar x r)%nat
  end.

Definition dquote : ascii := ascii_of_nat 34.

(** The four numeric options are all different from 0. *)
Definition numbersNonZero (o : Options) : Prop :=
  count o <> 0 /\ minLen o <> 0 /\ maxLen o <> 0 /\ maxDepth o <> 0.

(** One run of the file generator per extension on the concrete host,
    with lengths between 32 and 36, kept as data. *)
Module DemoFiles.

Definition dir : string := "/work/dist/ab12cd".

Definition htmlRun : Res string * Cursor * list Event :=
  Eval vm_compute in makeRandomFile Demo.host dir 32 36 (mkCursor 0 0 0).

Definition jsRun : Res string * Cursor * list Event :=
  Eval vm_compute in makeRandomFile Demo.host dir 32 36 (mkCursor 2 0 0).

Definition cssRun : Res string * Cursor * list Event :=
  Eval vm_compute in makeRandomFile Demo.host dir 32 36 (mkCursor 1 0 0).

Definition txtRun : Res string * Cursor * list Event :=
  Eval vm_compute in makeRandomFile Demo.host dir 32 36 (mkCursor 4 0 0).

End DemoFiles.

(** A run of the whole script on the concrete host, kept as data. *)
Module DemoMain.

Definition argv : list string := ["--count"; "2"; "--min"; "3"; "--max"; "5"].

Definition parsed : Options :=
  mkOptions "/work/dist" 2 3 5 3.

Definition mainRun : Res unit * Cursor * list Event :=
  Eval vm_compute in main Demo.host argv start.

End DemoMain.

Definition isErrorEvent (e : Event) : bool :=
  match e with EError _ => true | _ => false end.

(* ================================================================== *)
(** ** Option resolution *)
(* ================================================================== *)

Section Parsing.

Variable host : Host.

Lemma set_count_same o : set_count o (count o) = o.
Proof. destruct o; reflexivity. Qed.
Lemma set_minLen_same o : set_minLen o (minLen o) = o.
Proof. destruct o; reflexivity. Qed.
Lemma set_maxLen_same o : set_maxLen o (maxLen o) = o.
Proof. destruct o; reflexivity. Qed.
Lemma set_maxDepth_same o : set_maxDepth o (maxDepth o) = o.
Proof. destruct o; reflexivity. Qed.

Lemma orNum_falsy tok d : falsyNumber tok -> JS.orNum (JS.parseInt tok) d = d.
Proof. intros [H | H]; rewrite H; reflexivity. Qed.

(** The empty string is no flag: the loop steps over it. *)
Lemma parseArgs_empty_token rest o c :
  parseArgs host (EmptyString :: rest) o c = parseArgs host rest o c.
Proof. reflexivity. Qed.

(** A numeric flag followed by a token that is empty, not a number, or
    zero leaves the options as they are and resumes after the token. *)
Lemma parseArgs_falsy_value f tok rest o c :
  In f numericFlags -> falsyNumber tok ->
  parseArgs host (f :: tok :: rest) o c = parseArgs host rest o c.
Proof.
  intros Hf Htok.
  destruct tok as [| a tok'].
  - (* argv[i + 1] is falsy: the flag is skipped, then the empty token *)
    simpl in Hf.
    destruct Hf as [<- | [<- | [<- | [<- | []]]]]; reflexivity.
  - pose proof (orNum_falsy (String a tok')) as Hor.
    simpl in Hf.
    destruct Hf as [<- | [<- | [<- | [<- | []]]]];
      cbn [parseArgs dispatch String.eqb Ascii.eqb Bool.eqb andb orb hasValue
           nextArg JS.truthy_str];
      rewrite Hor by assumption;
      rewrite ?set_count_same, ?set_minLen_same, ?set_maxLen_same,
        ?set_maxDepth_same; reflexivity.
Qed.

Lemma flag_is_falsyNumber g : In g allFlags -> falsyNumber g.
Proof.
  intros Hg. left. simpl in Hg.
  repeat (destruct Hg as [<- | Hg]; [reflexivity |]). destruct Hg.
Qed.

(** One iteration of the loop, as an equation. *)
Lemma parseArgs_step a rest o c :
  parseArgs host (a :: rest) o c =
  match dispatch host a rest o with
  | TakeValue o' => parseArgs host (tl rest) o' c
  | Help => (Exited 0, c, [ELog (usage host)])
  | Skip => parseArgs host rest o c
  end.
Proof.
  cbn [parseArgs]. destruct (dispatch host a rest o); destruct rest; reflexivity.
Qed.

Lemma length_tl_le {A} (l : list A) : (List.length (tl l) <= List.length l)%nat.
Proof. destruct l; simpl; lia. Qed.

(** Induction along the loop: an iteration moves on by one or two
    arguments. *)
Lemma parseArgs_induction (P : list string -> Prop) :
  P [] ->
  (forall a rest, P rest -> P (tl rest) -> P (a :: rest)) ->
  forall argv, P argv.
Proof.
  intros Hnil Hstep argv.
  assert (H : forall n l, (List.length l <= n)%nat -> P l).
  { induction n as [| n IH]; intros [| a rest] Hl; simpl in Hl;
      try assumption; try lia.
    apply Hstep; apply IH; [lia |].
    pose proof (length_tl_le rest). lia. }
  apply (H (List.length argv)). lia.
Qed.

(** Parsing touches neither the random sources nor the filesystem: it
    returns options, or prints the usage text and exits with 0. *)
Lemma parseArgs_outcome argv :
  forall o c,
    (exists o', parseArgs host argv o c = (Val o', c, [])) \/
    parseArgs host argv o c = (Exited 0, c, [ELog (usage host)]).
Proof.
  induction argv as [| a rest IH1 IH2] using parseArgs_induction; intros o c.
  - left. exists o. reflexivity.
  - rewrite parseArgs_step. destruct (dispatch host a rest o).
    + apply IH2.
    + right. reflexivity.
    + apply IH1.
Qed.

Lemma dispatch_help a rest o :
  In a helpFlags -> dispatch host a rest o = Help.
Proof.
  simpl. intros [<- | [<- | []]]; reflexivity.
Qed.

Lemma eqb_false_of_neq (a b : string) : a <> b -> String.eqb a b = false.
Proof. intros H. apply String.eqb_neq. exact H. Qed.

Lemma dispatch_not_value_flag a rest o :
  ~ In a valueFlags ->
  dispatch host a rest o = Help \/ dispatch host a rest o = Skip.
Proof.
  intros Hn. simpl in Hn. unfold dispatch.
  rewrite (eqb_false_of_neq a "--count") by (intros ->; tauto).
  rewrite (eqb_false_of_neq a "--min") by (intros ->; tauto).
  rewrite (eqb_false_of_neq a "--max") by (intros ->; tauto).
  rewrite (eqb_false_of_neq a "--out") by (intros ->; tauto).
  rewrite (eqb_false_of_neq a "--depth") by (intros ->; tauto).
  cbn [andb]. destruct (String.eqb a "--help" || String.eqb a "-h"); tauto.
Qed.

(** A help flag that does not directly follow a value-taking flag is
    reached by the loop in flag position, or the loop has exited on an
    earlier help flag. *)
Lemma parseArgs_help pre :
  forall h post o c,
    In h helpFlags ->
    ~ In (last pre EmptyString) valueFlags ->
    parseArgs host (pre ++ h :: post) o c
    = (Exited 0, c, [ELog (usage host)]).
Proof.
  induction pre as [| a rest IH1 IH2] using parseArgs_induction;
    intros h post o c Hh Hlast.
  - cbn [app]. rewrite parseArgs_step, dispatch_help by assumption. reflexivity.
  - cbn [app]. rewrite parseArgs_step.
    destruct (dispatch host a (rest ++ h :: post) o) eqn:E.
    + (* the flag [a] consumed the next argument *)
      destruct rest as [| b rest'].
      * (* the help flag itself was consumed: excluded by the premise *)
        exfalso. cbn [last] in Hlast.
        destruct (dispatch_not_value_flag a ([] ++ h :: post) o Hlast) as [D | D];
          rewrite D in E; discriminate.
      * cbn [app tl]. cbn [tl] in IH2. apply IH2; [assumption |].
        destruct rest' as [| b' r'].
        -- simpl. intros [H | [H | [H | [H | [H | []]]]]]; discriminate.
        -- exact Hlast.
    + reflexivity.
    + destruct rest as [| b rest'].
      * cbn [app]. rewrite parseArgs_step, dispatch_help by assumption.
        reflexivity.
      * apply IH1; assumption.
Qed.

Lemma hasValue_In rest : hasValue rest = true -> In (nextArg rest) rest.
Proof. destruct rest; simpl; [discriminate | auto]. Qed.

(** Where a minimum length can come from in one iteration: it is kept,
    or it is the non-zero integer read from the next argument. *)
Lemma dispatch_minLen a rest o o' :
  dispatch host a rest o = TakeValue o' ->
  minLen o' = minLen o \/
  (In (nextArg rest) rest /\
   JS.parseInt (nextArg rest) = Some (minLen o') /\ minLen o' <> 0).
Proof.
  unfold dispatch.
  destruct (String.eqb a "--count" && hasValue rest);
    [intros [= <-]; left; reflexivity |].
  destruct (String.eqb a "--min" && hasValue rest) eqn:Emin.
  - intros [= <-]. apply andb_true_iff in Emin. destruct Emin as [_ Hv].
    cbn [minLen set_minLen].
    destruct (JS.parseInt (nextArg rest)) as [v |] eqn:Ep; cbn [JS.orNum];
      [| left; reflexivity].
    destruct (v =? 0) eqn:Ez; [left; reflexivity |].
    right. apply Z.eqb_neq in Ez. auto using hasValue_In.
  - destruct (String.eqb a "--max" && hasValue rest);
      [intros [= <-]; left; reflexivity |].
    destruct (String.eqb a "--out" && hasValue rest);
      [intros [= <-]; left; reflexivity |].
    destruct (String.eqb a "--depth" && hasValue rest);
      [intros [= <-]; left; reflexivity |].
    destruct (String.eqb a "--help" || String.eqb a "-h"); discriminate.
Qed.

Lemma parseArgs_minLen argv :
  forall o c o' c' ev,
    parseArgs host argv o c = (Val o', c', ev) ->
    minLen o' = minLen o \/
    (exists tok, In tok argv /\
                 JS.parseInt tok = Some (minLen o') /\ minLen o' <> 0).
Proof.
  induction argv as [| a rest IH1 IH2] using parseArgs_induction;
    intros o c o' c' ev.
  - intros [= <- _ _]. left. reflexivity.
  - rewrite parseArgs_step. destruct (dispatch host a rest o) as [o1 | |] eqn:E.
    + intros H. apply IH2 in H. destruct H as [H | (tok & Hin & Hp & Hz)].
      * destruct (dispatch_minLen _ _ _ _ E) as [H1 | (Hin & Hp & Hz)].
        -- left. congruence.
        -- right. exists (nextArg rest). rewrite H.
           split; [right; exact Hin | split; assumption].
      * right. exists tok. split; [| split; assumption].
        right. destruct rest; [destruct Hin | right; exact Hin].
    + discriminate.
    + intros H. apply IH1 in H. destruct H as [H | (tok & Hin & Hp & Hz)].
      * left. exact H.
      * right. exists tok. split; [right; exact Hin | split; assumption].
Qed.

(** The sanity step, field by field. *)
Lemma sanity_minLen o : minLen (sanity o) = Z.max 0 (minLen o).
Proof.
  unfold sanity.
  destruct (minLen o <? 0) eqn:E1;
    [apply Z.ltb_lt in E1 | apply Z.ltb_ge in E1];
    match goal with |- context [if ?b then _ else _] => destruct b end;
    cbn [minLen set_minLen set_maxLen]; lia.
Qed.

Lemma sanity_maxLen o :
  maxLen (sanity o) = Z.max (maxLen o) (Z.max 0 (minLen o)).
Proof.
  unfold sanity.
  destruct (minLen o <? 0) eqn:E1;
    [apply Z.ltb_lt in E1 | apply Z.ltb_ge in E1];
    match goal with |- context [if ?b then _ else _] => destruct b eqn:E2 end;
    cbn [minLen maxLen set_minLen set_maxLen] in *;
    [apply Z.ltb_lt in E2 | apply Z.ltb_ge in E2
     | apply Z.ltb_lt in E2 | apply Z.ltb_ge in E2]; lia.
Qed.

Lemma sanity_others o :
  outDir (sanity o) = outDir o /\ count (sanity o) = count o /\
  maxDepth (sanity o) = maxDepth o.
Proof.
  unfold sanity.
  destruct (minLen o <? 0);
    match goal with |- context [if ?b then _ else _] => destruct b end;
    auto.
Qed.

Lemma sanity_ordered o : 0 <= minLen (sanity o) <= maxLen (sanity o).
Proof. rewrite sanity_maxLen, sanity_minLen. lia. Qed.

End Parsing.

(* ================================================================== *)
(** ** Random numbers, letters and tokens *)
(* ================================================================== *)

Section Monad.

Lemma bind_val {A B} (m : M A) (f : A -> M B) c a c1 ev1 :
  m c = (Val a, c1, ev1) ->
  bind m f c = (let '(r, c2, ev2) := f a c1 in (r, c2, (ev1 ++ ev2)%list)).
Proof. intros H. unfold bind. rewrite H. destruct (f a c1) as [[r c2] ev2]. reflexivity. Qed.

Lemma bind_pure {A B} (m : M A) (f : A -> M B) c a c1 :
  m c = (Val a, c1, []) -> bind m f c = f a c1.
Proof.
  intros H. rewrite (bind_val _ _ _ _ _ _ H).
  destruct (f a c1) as [[r c2] ev2]. reflexivity.
Qed.

Lemma bind_thrown {A B} (m : M A) (f : A -> M B) c e c1 ev1 :
  m c = (Thrown e, c1, ev1) -> bind m f c = (Thrown e, c1, ev1).
Proof. intros H. unfold bind. rewrite H. reflexivity. Qed.

Lemma bind_exited {A B} (m : M A) (f : A -> M B) c k c1 ev1 :
  m c = (Exited k, c1, ev1) -> bind m f c = (Exited k, c1, ev1).
Proof. intros H. unfold bind. rewrite H. reflexivity. Qed.

End Monad.

Section Strings.

Lemma allChars_app p a b :
  allChars p (a ++ b) = allChars p a && allChars p b.
Proof.
  induction a as [| c a IH]; cbn [append allChars]; [reflexivity |].
  rewrite IH. apply andb_assoc.
Qed.

Lemma length_app (a b : string) :
  String.length (a ++ b) = (String.length a + String.length b)%nat.
Proof. induction a as [| c a IH]; cbn [append String.length]; [| rewrite IH]; reflexivity. Qed.

Lemma slice0_all n s : (String.length s <= n)%nat -> JS.slice0 n s = s.
Proof.
  unfold JS.slice0. revert n.
  induction s as [| c s IH]; intros [| n] H; cbn in *; try reflexivity; try lia.
  f_equal. apply IH. lia.
Qed.

Lemma slice0_length n s :
  String.length (JS.slice0 n s) = Nat.min n (String.length s).
Proof.
  unfold JS.slice0. revert n.
  induction s as [| c s IH]; intros [| n]; cbn; try reflexivity.
  f_equal. apply IH.
Qed.

Lemma slice0_allChars p n s :
  allChars p s = true -> allChars p (JS.slice0 n s) = true.
Proof.
  unfold JS.slice0. revert n.
  induction s as [| c s IH]; intros [| n] H; cbn in *; try reflexivity.
  apply andb_true_iff in H. destruct H as [Hc Hs].
  rewrite Hc. cbn. apply IH. exact Hs.
Qed.

Lemma hexDigit_isHex n : (n < 16)%N -> isHexChar (hexDigit n) = true.
Proof.
  intros H.
  assert (Hn : (N.to_nat n < 16)%nat) by lia.
  unfold hexDigit. generalize dependent (N.to_nat n). clear.
  intros k Hk.
  do 16 (destruct k as [| k]; [reflexivity |]). lia.
Qed.

Lemma hexOfByte_spec b :
  String.length (hexOfByte b) = 2%nat /\ allChars isHexChar (hexOfByte b) = true.
Proof.
  split; [reflexivity |].
  pose proof (Byte.to_N_bounded b) as Hb.
  unfold hexOfByte. cbn [allChars].
  rewrite !hexDigit_isHex; [reflexivity | |].
  - apply N.mod_lt. discriminate.
  - apply N.Div0.div_lt_upper_bound. lia.
Qed.

Lemma toHex_spec bs :
  String.length (toHex bs) = (2 * List.length bs)%nat /\
  allChars isHexChar (toHex bs) = true.
Proof.
  induction bs as [| b bs [IHl IHc]]; [split; reflexivity |].
  destruct (hexOfByte_spec b) as [Hl Hc].
  cbn [toHex List.length]. rewrite length_app, allChars_app, Hl, Hc, IHl, IHc.
  split; [lia | reflexivity].
Qed.

(** Every index below 52 selects a letter of [letters]. *)
Lemma charAt_letters k :
  0 <= k < 52 ->
  exists c, JS.charAt letters k = String c EmptyString /\ isLetter c = true.
Proof.
  intros H. unfold JS.charAt.
  destruct (k <? 0) eqn:E; [apply Z.ltb_lt in E; lia |].
  assert (Hn : (Z.to_nat k < 52)%nat) by lia.
  generalize dependent (Z.to_nat k). clear. intros n Hn.
  do 52 (destruct n as [| n]; [eexists; split; reflexivity |]). lia.
Qed.

(** [Math.floor(r * n)] for [r] in [0,1) and a positive integer [n]. *)
Lemma floor_scale r n :
  (0 <= r)%Q -> (r < 1)%Q -> 1 <= n ->
  0 <= JS.floor (r * inject_Z n) <= n - 1.
Proof.
  intros H0 H1 Hn. unfold JS.floor.
  assert (Hpos : (inject_Z 0 < inject_Z n)%Q) by (rewrite <- Zlt_Qlt; lia).
  change (inject_Z 0) with 0%Q in Hpos.
  split.
  - change 0 with (Qfloor 0). apply Qfloor_resp_le.
    apply Qmult_le_0_compat; [exact H0 | apply Qlt_le_weak; exact Hpos].
  - cut (Qfloor (r * inject_Z n) < n); [lia |].
    rewrite Zlt_Qlt.
    apply Qle_lt_trans with (y := (r * inject_Z n)%Q); [apply Qfloor_le |].
    setoid_replace (inject_Z n) with (1 * inject_Z n)%Q at 2
      by (symmetry; apply Qmult_1_l).
    apply Qmult_lt_compat_r; assumption.
Qed.

End Strings.

(* ================================================================== *)
(** ** Paths and their components *)
(* ================================================================== *)

Section Paths.

Lemma str_app_assoc (a b c : string) : (a ++ b) ++ c = a ++ (b ++ c).
Proof. induction a as [| x a IH]; cbn [append]; [| rewrite IH]; reflexivity. Qed.

Lemma str_app_nil_r (a : string) : a ++ EmptyString = a.
Proof. induction a as [| x a IH]; cbn [append]; [| rewrite IH]; reflexivity. Qed.

Lemma splitSep_not_nil s : splitSep s <> [].
Proof.
  destruct s as [| c r]; cbn [splitSep]; [discriminate |].
  destruct (Ascii.eqb c "/"); [discriminate |].
  destruct (splitSep r); discriminate.
Qed.

Lemma splitSep_join a b :
  splitSep (a ++ "/" ++ b) = (splitSep a ++ splitSep b)%list.
Proof.
  induction a as [| c a IH].
  - reflexivity.
  - cbn [append splitSep]. cbn [append] in IH. rewrite IH.
    destruct (Ascii.eqb c "/"); [reflexivity |].
    pose proof (splitSep_not_nil a) as Hn.
    destruct (splitSep a); [congruence | reflexivity].
Qed.

Lemma segments_join a b :
  segments (a ++ "/" ++ b) = (segments a ++ segments b)%list.
Proof. unfold segments. rewrite splitSep_join. apply filter_app. Qed.

Lemma endsWithSep_inv s :
  endsWithSep s = true -> exists s', s = s' ++ "/".
Proof.
  induction s as [| c r IH]; [discriminate |].
  destruct r as [| d r'].
  - cbn [endsWithSep]. intros H. apply Ascii.eqb_eq in H. subst c.
    exists EmptyString. reflexivity.
  - intros H. change (endsWithSep (String d r') = true) in H.
    destruct (IH H) as [s' Hs']. exists (String c s'). cbn [append].
    rewrite <- Hs'. reflexivity.
Qed.

Lemma segments_joinSeg acc part :
  segments (joinSeg acc part) = (segments acc ++ segments part)%list.
Proof.
  unfold joinSeg. destruct (endsWithSep acc) eqn:E.
  - destruct (endsWithSep_inv _ E) as [a' ->].
    rewrite str_app_assoc, segments_join.
    rewrite <- (str_app_nil_r (a' ++ "/")), str_app_assoc, segments_join.
    cbn [append]. change (segments EmptyString) with (@nil string).
    rewrite app_nil_r. reflexivity.
  - apply segments_join.
Qed.

Lemma splitSep_plain s : allChars isNameChar s = true -> splitSep s = [s].
Proof.
  induction s as [| c r IH]; [reflexivity |].
  cbn [allChars splitSep]. intros H. apply andb_true_iff in H.
  destruct H as [Hc Hr]. unfold isNameChar in Hc.
  destruct (Ascii.eqb c "/"); [discriminate |].
  rewrite (IH Hr). reflexivity.
Qed.

Lemma segments_plain s : plainName s -> segments s = [s].
Proof.
  intros [Ht Hc]. unfold segments. rewrite (splitSep_plain _ Hc).
  cbn [filter]. rewrite Ht. reflexivity.
Qed.

(** Joining plain names below a base adds exactly these names to the
    components of the base. *)
Lemma segments_path_join parts :
  forall base,
    Forall plainName parts ->
    segments (path_join base parts) = (segments base ++ parts)%list.
Proof.
  unfold path_join.
  induction parts as [| p parts IH]; intros base Hp; cbn [fold_left].
  - rewrite app_nil_r. reflexivity.
  - inversion Hp as [| ? ? Hp1 Hp2]; subst.
    rewrite (IH _ Hp2), segments_joinSeg, (segments_plain _ Hp1), <- app_assoc.
    reflexivity.
Qed.

Lemma allChars_weaken (p q : ascii -> bool) s :
  (forall c, p c = true -> q c = true) ->
  allChars p s = true -> allChars q s = true.
Proof.
  intros Hpq. induction s as [| c r IH]; [reflexivity |].
  cbn [allChars]. intros H. apply andb_true_iff in H. destruct H as [Hc Hr].
  rewrite (Hpq _ Hc), (IH Hr). reflexivity.
Qed.

Lemma hex_is_nameChar c : isHexChar c = true -> isNameChar c = true.
Proof.
  unfold isNameChar. destruct (Ascii.eqb_spec c "/") as [-> | _];
    [discriminate | reflexivity].
Qed.

Lemma hexToken_plain n s : hexToken (S n) s -> plainName s.
Proof.
  intros [Hl Hc]. split.
  - destruct s; [discriminate | reflexivity].
  - exact (allChars_weaken _ _ _ hex_is_nameChar Hc).
Qed.

Lemma fileName_plain h ext :
  hexToken 8 h -> In ext exts -> plainName ("file_" ++ h ++ ext).
Proof.
  intros [_ Hc] Hext. split; [reflexivity |].
  rewrite !allChars_app.
  rewrite (allChars_weaken _ _ _ hex_is_nameChar Hc).
  simpl in Hext.
  destruct Hext as [<- | [<- | [<- | [<- | []]]]]; reflexivity.
Qed.

End Paths.

(* ================================================================== *)
(** ** The templates against the format contract *)
(* ================================================================== *)

Section Templates.

Lemma firstChars_slice0 n : forall s, firstChars n s = JS.slice0 n s.
Proof.
  unfold JS.slice0.
  induction n as [| n IH]; intros [| c r]; cbn [firstChars String.substring];
    try reflexivity.
  rewrite IH. reflexivity.
Qed.

Lemma html_template_is_markupDocument title payload :
  html_template title payload = markupDocument title payload.
Proof.
  unfold html_template, markupDocument, quoted, JS.nl, JS.dq.
  cbn [unlines]. rewrite !str_app_assoc. reflexivity.
Qed.

Lemma js_template_is_scriptFunction tag payload :
  js_template tag payload = scriptFunction tag payload.
Proof.
  unfold js_template, scriptFunction, quoted, JS.nl, JS.dq.
  cbn [unlines append]. rewrite !str_app_assoc. reflexivity.
Qed.

Lemma css_template_is_styleRule tag payload :
  css_template tag payload = styleRule tag payload.
Proof.
  unfold css_template, styleRule, quoted, JS.nl, JS.dq.
  rewrite firstChars_slice0.
  cbn [unlines append]. rewrite !str_app_assoc. reflexivity.
Qed.

End Templates.

(* ================================================================== *)
(** ** The generators *)
(* ================================================================== *)

Section Generators.

Variable host : Host.

Lemma rndInt_run min max c :
  rndInt host min max c =
  (Val (JS.floor (random host (rnd_i c) * inject_Z (max - min + 1)) + min),
   mkCursor (S (rnd_i c)) (byte_i c) (fs_i c), []).
Proof. reflexivity. Qed.

Lemma randomBytes_spec n :
  forall c, exists bs c',
    randomBytes host n c = (Val bs, c', []) /\ List.length bs = n.
Proof.
  induction n as [| n IH]; intros c.
  - exists [], c. split; reflexivity.
  - cbn [randomBytes].
    destruct (IH (mkCursor (rnd_i c) (S (byte_i c)) (fs_i c)))
      as (bs & c' & Hrun & Hlen).
    exists (randomByte host (byte_i c) :: bs), c'. split.
    + erewrite bind_pure by reflexivity.
      erewrite bind_pure by exact Hrun. reflexivity.
    + cbn [List.length]. rewrite Hlen. reflexivity.
Qed.

(** [rndHex(len)] returns [len] hexadecimal characters. *)
Lemma rndHex_spec len c :
  exists h c', rndHex host len c = (Val h, c', []) /\ hexToken len h.
Proof.
  destruct (randomBytes_spec (Nat.div (len + 1) 2) c) as (bs & c' & Hrun & Hlen).
  destruct (toHex_spec bs) as [Hl Hc].
  exists (JS.slice0 len (toHex bs)), c'. split.
  - unfold rndHex. erewrite bind_pure by exact Hrun. reflexivity.
  - split.
    + rewrite slice0_length, Hl, Hlen.
      pose proof (Nat.div_mod_eq (len + 1) 2) as Hd.
      pose proof (Nat.mod_upper_bound (len + 1) 2 ltac:(discriminate)) as Hm.
      lia.
    + apply slice0_allChars. exact Hc.
Qed.

Lemma makeRandomDir_loop_spec n :
  forall parts c, exists new c',
    makeRandomDir_loop host n parts c = (Val (parts ++ new)%list, c', []) /\
    List.length new = n /\ Forall (hexToken 6) new.
Proof.
  induction n as [| n IH]; intros parts c.
  - exists [], c. rewrite app_nil_r. repeat split. constructor.
  - destruct (rndHex_spec 6 c) as (h & c1 & Hh & Htok).
    destruct (IH (parts ++ [h])%list c1) as (new & c' & Hrun & Hlen & Hall).
    exists (h :: new), c'. split; [| split].
    + cbn [makeRandomDir_loop]. erewrite bind_pure by exact Hh.
      rewrite Hrun, <- app_assoc. reflexivity.
    + cbn [List.length]. rewrite Hlen. reflexivity.
    + constructor; assumption.
Qed.

Lemma fs_call_run ev err c :
  fs_call host ev err c =
  if fs_ok host (fs_i c)
  then (Val tt, mkCursor (rnd_i c) (byte_i c) (S (fs_i c)), [ev])
  else (Thrown err, mkCursor (rnd_i c) (byte_i c) (S (fs_i c)), []).
Proof. reflexivity. Qed.

(** The path generator: the shape of every call.  The number of tokens is
    the depth drawn by [rndInt(1, Math.max(1, maxDepth))]. *)
Lemma makeRandomDir_shape base maxDepth c :
  exists parts c1,
    List.length parts =
      Z.to_nat (JS.floor (random host (rnd_i c) *
                          inject_Z (Z.max 1 maxDepth - 1 + 1)) + 1) /\
    Forall (hexToken 6) parts /\
    makeRandomDir host base maxDepth c =
    (_ <- fs_mkdir host (path_join base parts) ;; ret (path_join base parts)) c1.
Proof.
  destruct (makeRandomDir_loop_spec
              (Z.to_nat (JS.floor (random host (rnd_i c) *
                                   inject_Z (Z.max 1 maxDepth - 1 + 1)) + 1))
              [] (mkCursor (S (rnd_i c)) (byte_i c) (fs_i c)))
    as (parts & c1 & Hrun & Hlen & Hall).
  exists parts, c1. repeat split; try assumption.
  unfold makeRandomDir. erewrite bind_pure by apply rndInt_run.
  erewrite bind_pure by exact Hrun. reflexivity.
Qed.

Lemma makeRandomDir_result base maxDepth c r c' ev :
  makeRandomDir host base maxDepth c = (r, c', ev) ->
  match r with
  | Val dir => ev = [EMkdir dir]
  | Thrown _ => ev = []
  | Exited _ => False
  end.
Proof.
  destruct (makeRandomDir_shape base maxDepth c) as (parts & c1 & _ & _ & ->).
  unfold bind, fs_mkdir. rewrite fs_call_run.
  destruct (fs_ok host (fs_i c1)); intros [= <- <- <-]; reflexivity.
Qed.

Lemma fs_writeFile_emit dir ext h content c :
  exists data c1,
    wrapContent host ext content c = (Val data, c1, []) /\
    (forall e, ext = Some e -> In e exts ->
       exists tag c5,
         hexToken 6 tag /\
         (e <> ".txt" -> rndHex host 6 c = (Val tag, c5, [])) /\
         fileContract tag content e data) /\
    makeRandomFile_emit host dir ext h content c =
    (let p := path_join dir ["file_" ++ h ++ JS.showStr ext] in
     if fs_ok host (fs_i c1)
     then (Val p, mkCursor (rnd_i c1) (byte_i c1) (S (fs_i c1)), [EWrite p data])
     else (Thrown (WriteFailed p),
           mkCursor (rnd_i c1) (byte_i c1) (S (fs_i c1)), [])).
Proof.
  destruct (rndHex_spec 6 c) as (t & ct & Ht & Htok).
  assert (Hw : exists data c1,
             wrapContent host ext content c = (Val data, c1, []) /\
             (forall e, ext = Some e -> In e exts ->
                exists tag c5,
                  hexToken 6 tag /\
                  (e <> ".txt" -> rndHex host 6 c = (Val tag, c5, [])) /\
                  fileContract tag content e data)).
  { unfold wrapContent.
    destruct (JS.strictEq ext ".html") eqn:E1;
      [| destruct (JS.strictEq ext ".js") eqn:E2;
         [| destruct (JS.strictEq ext ".css") eqn:E3]].
    - exists (html_template t content), ct. split.
      + erewrite bind_pure by exact Ht. reflexivity.
      + intros e -> _. apply String.eqb_eq in E1. subst e.
        exists t, ct. split; [exact Htok | split; [intros _; exact Ht |]].
        rewrite html_template_is_markupDocument. constructor.
    - exists (js_template t content), ct. split.
      + erewrite bind_pure by exact Ht. reflexivity.
      + intros e -> _. apply String.eqb_eq in E2. subst e.
        exists t, ct. split; [exact Htok | split; [intros _; exact Ht |]].
        rewrite js_template_is_scriptFunction. constructor.
    - exists (css_template t content), ct. split.
      + erewrite bind_pure by exact Ht. reflexivity.
      + intros e -> _. apply String.eqb_eq in E3. subst e.
        exists t, ct. split; [exact Htok | split; [intros _; exact Ht |]].
        rewrite css_template_is_styleRule. constructor.
    - exists content, c. split; [reflexivity |].
      intros e -> Hin. cbn [JS.strictEq] in E1, E2, E3. simpl in Hin.
      destruct Hin as [<- | [<- | [<- | [<- | []]]]];
        try discriminate.
      exists t, ct. split; [exact Htok | split; [congruence | constructor]]. }
  destruct Hw as (data & c1 & Hrun & Hcontract).
  exists data, c1. split; [exact Hrun | split; [exact Hcontract |]].
  unfold makeRandomFile_emit. erewrite bind_pure by exact Hrun.
  unfold bind, fs_writeFile. rewrite fs_call_run.
  destruct (fs_ok host (fs_i c1)); reflexivity.
Qed.

Section ValidRandom.

Hypothesis Hrand : random_in_unit host.

(** [rndInt(min, max)] lies between [min] and [max]. *)
Lemma rndInt_range min max c :
  min <= max ->
  exists v c', rndInt host min max c = (Val v, c', []) /\ min <= v <= max.
Proof.
  intros Hle. eexists. eexists. split; [apply rndInt_run |].
  destruct (Hrand (rnd_i c)) as [H0 H1].
  pose proof (floor_scale _ (max - min + 1) H0 H1 ltac:(lia)). lia.
Qed.

Lemma rndString_loop_spec n :
  forall out c, exists s c',
    rndString_loop host n out c = (Val (out ++ s), c', []) /\
    String.length s = n /\ allChars isLetter s = true.
Proof.
  induction n as [| n IH]; intros out c.
  - exists EmptyString, c. rewrite str_app_nil_r. repeat split.
  - cbn [rndString_loop].
    destruct (Hrand (rnd_i c)) as [H0 H1].
    pose proof (floor_scale _ (Z.of_nat (String.length letters)) H0 H1
                  ltac:(cbn; lia)) as Hk.
    assert (Hk' : 0 <= JS.floor (random host (rnd_i c) *
                                 inject_Z (Z.of_nat (String.length letters)))
                  < 52)
      by (change (Z.of_nat (String.length letters) - 1) with 51 in Hk; lia).
    destruct (charAt_letters _ Hk') as (ch & Hch & Hletter).
    destruct (IH (out ++ String ch EmptyString)
                (mkCursor (S (rnd_i c)) (byte_i c) (fs_i c)))
      as (s & c' & Hrun & Hlen & Hall).
    exists (String ch s), c'. split; [| split].
    + erewrite bind_pure by reflexivity. cbn [rnd_i].
      rewrite Hch, Hrun, str_app_assoc. reflexivity.
    + cbn [String.length]. rewrite Hlen. reflexivity.
    + cbn [allChars]. rewrite Hletter, Hall. reflexivity.
Qed.

(** [rndString(len)]: [len] letters, none when [len] is negative. *)
Lemma rndString_spec len c :
  exists s c',
    rndString host len c = (Val s, c', []) /\
    Z.of_nat (String.length s) = Z.max 0 len /\
    allChars isLetter s = true.
Proof.
  destruct (rndString_loop_spec (Z.to_nat len) EmptyString c)
    as (s & c' & Hrun & Hlen & Hall).
  exists s, c'. split; [exact Hrun | split; [lia | exact Hall]].
Qed.

Lemma pick_exts c :
  exists e c', pick host exts c = (Val (Some e), c', []) /\ In e exts.
Proof.
  destruct (Hrand (rnd_i c)) as [H0 H1].
  pose proof (floor_scale _ (Z.of_nat (List.length exts)) H0 H1
                ltac:(cbn; lia)) as Hk.
  unfold pick. erewrite bind_pure by reflexivity. cbn [rnd_i ret].
  set (k := JS.floor _) in *. unfold JS.index.
  destruct (k <? 0) eqn:E; [apply Z.ltb_lt in E; lia |].
  assert (Hn : (Z.to_nat k < 4)%nat)
    by (change (Z.of_nat (List.length exts) - 1) with 3 in Hk; lia).
  generalize dependent (Z.to_nat k). intros n Hn.
  do 4 (destruct n as [| n];
        [eexists; eexists; split; [reflexivity | simpl; auto 6] |]).
  lia.
Qed.

(** The path generator draws between 1 and [max(1, maxDepth)] tokens. *)
Lemma makeRandomDir_spec base maxDepth c :
  exists parts c1,
    1 <= Z.of_nat (List.length parts) <= Z.max 1 maxDepth /\
    Forall (hexToken 6) parts /\
    makeRandomDir host base maxDepth c =
    (let dir := path_join base parts in
     if fs_ok host (fs_i c1)
     then (Val dir, mkCursor (rnd_i c1) (byte_i c1) (S (fs_i c1)),
           [EMkdir dir])
     else (Thrown (MkdirFailed dir),
           mkCursor (rnd_i c1) (byte_i c1) (S (fs_i c1)), [])).
Proof.
  destruct (makeRandomDir_shape base maxDepth c)
    as (parts & c1 & Hlen & Hall & Hrun).
  exists parts, c1. split; [| split; [exact Hall |]].
  - destruct (Hrand (rnd_i c)) as [H0 H1].
    pose proof (floor_scale _ (Z.max 1 maxDepth - 1 + 1) H0 H1 ltac:(lia)).
    lia.
  - rewrite Hrun. unfold bind, fs_mkdir. rewrite fs_call_run.
    destruct (fs_ok host (fs_i c1)); reflexivity.
Qed.

(** The four draws of the file generator, and what they hand over to
    the rest of [makeRandomFile]. *)
Lemma makeRandomFile_draws dir minLen maxLen c :
  exists ext h len payload c1 c2 c3 c4,
    pick host exts c = (Val (Some ext), c1, []) /\ In ext exts /\
    rndHex host 8 c1 = (Val h, c2, []) /\ hexToken 8 h /\
    rndInt host minLen maxLen c2 = (Val len, c3, []) /\
    (minLen <= maxLen -> minLen <= len <= maxLen) /\
    rndString host len c3 = (Val payload, c4, []) /\
    Z.of_nat (String.length payload) = Z.max 0 len /\
    allChars isLetter payload = true /\
    makeRandomFile host dir minLen maxLen c =
    makeRandomFile_emit host dir (Some ext) h payload c4.
Proof.
  destruct (pick_exts c) as (ext & c1 & Hpick & Hin).
  destruct (rndHex_spec 8 c1) as (h & c2 & Hhex & Htok).
  pose proof (rndInt_run minLen maxLen c2) as Hint.
  set (len := JS.floor _ + minLen) in Hint.
  set (c3 := mkCursor _ _ _) in Hint.
  destruct (rndString_spec len c3) as (payload & c4 & Hstr & Hlen & Hall).
  exists ext, h, len, payload, c1, c2, c3, c4.
  repeat (split; [assumption |]).
  split.
  { intros Hle. destruct (rndInt_range minLen maxLen c2 Hle)
      as (v & c' & Hv & Hrange).
    rewrite Hint in Hv. injection Hv as <- _. exact Hrange. }
  repeat (split; [assumption |]).
  unfold makeRandomFile.
  erewrite bind_pure by exact Hpick.
  erewrite bind_pure by exact Hhex.
  erewrite bind_pure by exact Hint.
  erewrite bind_pure by exact Hstr.
  reflexivity.
Qed.

End ValidRandom.

End Generators.

(* ================================================================== *)
(** ** The orchestrator *)
(* ================================================================== *)

Section Orchestrator.

Variable host : Host.

Lemma rndString_loop_total n :
  forall out c, exists s c', rndString_loop host n out c = (Val s, c', []).
Proof.
  induction n as [| n IH]; intros out c.
  - exists out, c. reflexivity.
  - cbn [rndString_loop]. erewrite bind_pure by reflexivity. apply IH.
Qed.

(** Whatever the random values, the file generator reaches its write. *)
Lemma makeRandomFile_reaches_emit dir minLen maxLen c :
  exists ext h content c4,
    makeRandomFile host dir minLen maxLen c =
    makeRandomFile_emit host dir ext h content c4.
Proof.
  assert (Hpick : pick host exts c =
            (Val (JS.index exts
                    (JS.floor (random host (rnd_i c) *
                               inject_Z (Z.of_nat (List.length exts))))),
             mkCursor (S (rnd_i c)) (byte_i c) (fs_i c), []))
    by reflexivity.
  destruct (rndHex_spec host 8 (mkCursor (S (rnd_i c)) (byte_i c) (fs_i c)))
    as (h & c2 & Hhex & _).
  pose proof (rndInt_run host minLen maxLen c2) as Hint.
  set (len := JS.floor _ + minLen) in Hint.
  set (c3 := mkCursor _ _ _) in Hint.
  destruct (rndString_loop_total (Z.to_nat len) EmptyString c3)
    as (content & c4 & Hstr).
  unfold makeRandomFile.
  rewrite (bind_pure _ _ _ _ _ Hpick).
  rewrite (bind_pure _ _ _ _ _ Hhex).
  rewrite (bind_pure _ _ _ _ _ Hint).
  rewrite (bind_pure _ _ _ _ _ Hstr).
  eexists. eexists. eexists. eexists. reflexivity.
Qed.

Lemma report_run created c :
  report host created c =
  (Val tt, c, map (fun f => ELog (" - " ++ path_relative host (cwd host) f))
                created).
Proof.
  induction created as [| f r IH]; [reflexivity |].
  cbn [report map]. erewrite bind_val by reflexivity. rewrite IH. reflexivity.
Qed.

Section NoFsError.

Hypothesis Hfs : fs_always_ok host.

Lemma makeRandomDir_ok base maxDepth c :
  exists dir c1,
    makeRandomDir host base maxDepth c = (Val dir, c1, [EMkdir dir]).
Proof.
  destruct (makeRandomDir_shape host base maxDepth c)
    as (parts & c1 & _ & _ & Hrun).
  exists (path_join base parts), (after_fs_call c1).
  rewrite Hrun. unfold bind, fs_mkdir. rewrite fs_call_run, Hfs. reflexivity.
Qed.

Lemma makeRandomFile_ok dir minLen maxLen c :
  exists file data c1,
    makeRandomFile host dir minLen maxLen c
    = (Val file, c1, [EWrite file data]).
Proof.
  destruct (makeRandomFile_reaches_emit dir minLen maxLen c)
    as (ext & h & content & c4 & ->).
  destruct (fs_writeFile_emit host dir ext h content c4)
    as (data & c5 & _ & _ & ->).
  cbv zeta. rewrite Hfs. eexists. eexists. eexists. reflexivity.
Qed.

(** The creation loop: [n] iterations, the returned paths appended in
    the order of creation. *)
Lemma create_loop_spec opts n :
  forall created c,
  exists items c',
    iterations host opts c items c' /\
    List.length items = n /\
    create_loop host opts n created c =
    (Val (created ++ map it_file items)%list, c',
     flat_map item_events items).
Proof.
  induction n as [| n IH]; intros created c.
  - exists [], c. split; [constructor | split; [reflexivity |]].
    cbn [create_loop map flat_map]. rewrite app_nil_r. reflexivity.
  - destruct (makeRandomDir_ok (outDir opts) (maxDepth opts) c)
      as (dir & c1 & Hdir).
    destruct (makeRandomFile_ok dir (minLen opts) (maxLen opts) c1)
      as (file & data & c2 & Hfile).
    destruct (IH (created ++ [file])%list c2)
      as (items & c' & Hiter & Hlen & Hrun).
    exists (mkItem dir file data :: items), c'. split; [| split].
    + econstructor; eassumption.
    + cbn [List.length]. rewrite Hlen. reflexivity.
    + cbn [create_loop]. rewrite (bind_val _ _ _ _ _ _ Hdir).
      rewrite (bind_val _ _ _ _ _ _ Hfile). rewrite Hrun.
      cbn [map flat_map item_events it_dir it_file it_data app].
      rewrite <- app_assoc. reflexivity.
Qed.

(** A whole run that is not a help request. *)
Lemma main_run argv c o :
  parseArgs host argv (DEFAULTS host) c = (Val o, c, []) ->
  exists items c',
    iterations host (sanity o) (after_fs_call c) items c' /\
    List.length items = Z.to_nat (count (sanity o)) /\
    main host argv c =
    (Val tt, c',
     (EMkdir (outDir (sanity o)) :: flat_map item_events items ++
      summary_events host (sanity o) (map it_file items))%list).
Proof.
  intros Hparse.
  destruct (create_loop_spec (sanity o)
              (Z.to_nat (count (sanity o))) [] (after_fs_call c))
    as (items & c' & Hiter & Hlen & Hrun).
  exists items, c'. split; [exact Hiter | split; [exact Hlen |]].
  unfold main. rewrite (bind_pure _ _ _ _ _ Hparse).
  assert (Hmk : fs_mkdir host (outDir (sanity o)) c
                = (Val tt, after_fs_call c, [EMkdir (outDir (sanity o))])).
  { unfold fs_mkdir. rewrite fs_call_run, Hfs. reflexivity. }
  rewrite (bind_val _ _ _ _ _ _ Hmk).
  rewrite (bind_val _ _ _ _ _ _ Hrun).
  erewrite bind_val by reflexivity.
  rewrite report_run. cbn [app]. reflexivity.
Qed.

End NoFsError.

(** A run that reaches a help flag prints the usage text and exits. *)
Lemma main_help argv c :
  parseArgs host argv (DEFAULTS host) c = (Exited 0, c, [ELog (usage host)]) ->
  main host argv c = (Exited 0, c, [ELog (usage host)]).
Proof. intros H. unfold main. apply bind_exited. exact H. Qed.

End Orchestrator.

(* ================================================================== *)
(** ** The concrete host meets the contracts *)
(* ================================================================== *)

Lemma demo_random_in_unit : random_in_unit Demo.host.
Proof.
  intros n. cbn [random Demo.host]. unfold Demo.rand, Qle, Qlt. cbn [Qnum Qden].
  pose proof (Nat.mod_upper_bound (7 * n) 10 ltac:(discriminate)). lia.
Qed.

Lemma demo_fs_always_ok : fs_always_ok Demo.host.
Proof. intros n. reflexivity. Qed.

Example parseInt_digits : JS.parseInt "12" = Some 12.
Proof. reflexivity. Qed.
Example parseInt_prefix : JS.parseInt "  -7px" = Some (-7).
Proof. reflexivity. Qed.
Example parseInt_letters : JS.parseInt "abc" = None.
Proof. reflexivity. Qed.
Example parseInt_radix10 : JS.parseInt "0x1f" = Some 0.
Proof. reflexivity. Qed.
Example showZ_500 : JS.showZ 500 = "500".
Proof. reflexivity. Qed.

(* ================================================================== *)
(** ** The properties of the specification *)
(* ================================================================== *)

(** C1. The specification says that [--count 0] resolves the count to 0 and
    that no file is created.  On the code, the value 0 is falsy in
    [parseInt(..) || opts.count], so the arguments [--count 0] leave the
    options at their defaults on every host (count 20), and on the concrete
    host the run writes 20 files. *)
Theorem count_zero_resolves_to_default :
  (forall host c,
     parseArgs host ["--count"; "0"] (DEFAULTS host) c
     = (Val (DEFAULTS host), c, []) /\
     count (sanity (DEFAULTS host)) = 20) /\
  List.length (filter isWrite (events (run Demo.host ["--count"; "0"])))
  = 20%nat.
Proof.
  split.
  - intros host c. split; reflexivity.
  - vm_compute. reflexivity.
Qed.

(** C2. A numeric flag ([--count], [--min], [--max], [--depth]) whose next
    token does not parse as an integer leaves every option as it is, and
    option resolution resumes after that token; the run is then the run
    without these two arguments.  In particular [--count abc] resolves to
    the defaults, whose count is 20. *)
Theorem nonnumeric_value_keeps_default (host : Host) :
  (forall f tok rest o c,
     In f numericFlags -> JS.parseInt tok = None ->
     parseArgs host (f :: tok :: rest) o c = parseArgs host rest o c /\
     main host (f :: tok :: rest) c = main host rest c) /\
  (forall c,
     parseArgs host ["--count"; "abc"] (DEFAULTS host) c
     = (Val (DEFAULTS host), c, []) /\
     count (DEFAULTS host) = 20 /\
     main host ["--count"; "abc"] c = main host [] c).
Proof.
  split.
  - intros f tok rest o c Hf Htok.
    assert (H : forall o c,
               parseArgs host (f :: tok :: rest) o c = parseArgs host rest o c)
      by (intros; apply parseArgs_falsy_value; [assumption | left; assumption]).
    split; [apply H |].
    unfold main, bind. rewrite H. reflexivity.
  - intros c. repeat split.
Qed.

Lemma nonnumeric_value_keeps_default_witness :
  In "--depth" numericFlags /\ JS.parseInt "e1" = None /\
  parseArgs Demo.host ["--depth"; "e1"; "--count"; "2"] (DEFAULTS Demo.host) start
  = parseArgs Demo.host ["--count"; "2"] (DEFAULTS Demo.host) start.
Proof.
  split; [simpl; auto |]. split; [reflexivity |].
  apply (proj1 (nonnumeric_value_keeps_default Demo.host)).
  - simpl; auto.
  - reflexivity.
Defined.

(** C3. The length drawn by [rndInt(minLen, maxLen)] lies in
    [minLen, maxLen] whenever [minLen <= maxLen].  In a run of the program
    the file generator is called with the options after the sanity step,
    and then every call draws a length in that range and a payload of
    exactly that length, made of ASCII letters only, which is what the rest
    of [makeRandomFile] wraps and writes. *)
Theorem generated_content_within_bounds (host : Host) :
  random_in_unit host ->
  (forall minLen maxLen c,
     minLen <= maxLen ->
     exists len c',
       rndInt host minLen maxLen c = (Val len, c', []) /\
       minLen <= len <= maxLen) /\
  (forall (parsed : Options) dir c,
     let opts := sanity parsed in
     exists ext h len payload c1 c2 c3 c4,
       pick host exts c = (Val (Some ext), c1, []) /\
       rndHex host 8 c1 = (Val h, c2, []) /\
       rndInt host (minLen opts) (maxLen opts) c2 = (Val len, c3, []) /\
       rndString host len c3 = (Val payload, c4, []) /\
       makeRandomFile host dir (minLen opts) (maxLen opts) c
       = makeRandomFile_emit host dir (Some ext) h payload c4 /\
       minLen opts <= len <= maxLen opts /\
       Z.of_nat (String.length payload) = len /\
       allChars isLetter payload = true).
Proof.
  intros Hrand. split.
  - intros minLen maxLen c Hle. apply rndInt_range; assumption.
  - intros parsed dir c opts.
    destruct (makeRandomFile_draws host Hrand dir (minLen opts) (maxLen opts) c)
      as (ext & h & len & payload & c1 & c2 & c3 & c4 &
          Hpick & _ & Hhex & _ & Hint & Hrange & Hstr & Hlen & Hall & Hrun).
    pose proof (sanity_ordered parsed) as Hord. fold opts in Hord.
    specialize (Hrange ltac:(lia)).
    exists ext, h, len, payload, c1, c2, c3, c4.
    repeat (split; [assumption |]).
    split; [lia | exact Hall].
Qed.

Lemma generated_content_within_bounds_witness :
  random_in_unit Demo.host /\ 10 <= 12 /\
  (exists len c',
     rndInt Demo.host 10 12 start = (Val len, c', []) /\ 10 <= len <= 12) /\
  (exists ext h len payload c1 c2 c3 c4,
     pick Demo.host exts start = (Val (Some ext), c1, []) /\
     rndHex Demo.host 8 c1 = (Val h, c2, []) /\
     rndInt Demo.host 0 0 c2 = (Val len, c3, []) /\
     rndString Demo.host len c3 = (Val payload, c4, []) /\
     makeRandomFile Demo.host "/work/dist/ab12cd" 0 0 start
     = makeRandomFile_emit Demo.host "/work/dist/ab12cd" (Some ext) h payload c4 /\
     0 <= len <= 0 /\
     Z.of_nat (String.length payload) = len /\
     allChars isLetter payload = true).
Proof.
  destruct (generated_content_within_bounds Demo.host demo_random_in_unit)
    as [Hint Hfile].
  split; [exact demo_random_in_unit |]. split; [lia |]. split.
  - apply Hint. lia.
  - exact (Hfile Demo.reversed "/work/dist/ab12cd" start).
Defined.

(** C4. For every file the program creates, and for every value of
    [maxDepth] (also below 1), the directories between the output base
    directory and the file are the tokens drawn by the path generator, and
    their number lies in [1, max(1, maxDepth)]. *)
Theorem created_file_depth (host : Host) :
  random_in_unit host ->
  forall base maxDepth minLen maxLen c dir c1 ev1 file c2 ev2,
    makeRandomDir host base maxDepth c = (Val dir, c1, ev1) ->
    makeRandomFile host dir minLen maxLen c1 = (Val file, c2, ev2) ->
    exists parts name,
      segments dir = (segments base ++ parts)%list /\
      segments file = (segments base ++ parts ++ [name])%list /\
      1 <= Z.of_nat (List.length parts) <= Z.max 1 maxDepth.
Proof.
  intros Hrand base maxDepth minLen maxLen c dir c1 ev1 file c2 ev2 Hdir Hfile.
  destruct (makeRandomDir_spec host Hrand base maxDepth c)
    as (parts & cd & Hdepth & Htok & Hrun).
  rewrite Hrun in Hdir. cbv zeta in Hdir.
  destruct (fs_ok host (fs_i cd)); [| discriminate].
  injection Hdir as Hd _ _.
  assert (Hplain : Forall plainName parts).
  { eapply Forall_impl; [| exact Htok]. intros a. apply hexToken_plain. }
  destruct (makeRandomFile_draws host Hrand dir minLen maxLen c1)
    as (ext & h & len & payload & k1 & k2 & k3 & k4 &
        _ & Hext & _ & Hhex & _ & _ & _ & _ & _ & Hemit).
  rewrite Hemit in Hfile.
  destruct (fs_writeFile_emit host dir (Some ext) h payload k4)
    as (data & k5 & _ & _ & Hwrite).
  rewrite Hwrite in Hfile. cbv zeta in Hfile.
  destruct (fs_ok host (fs_i k5)); [| discriminate].
  injection Hfile as Hf _ _.
  change (path_join dir ["file_" ++ h ++ ext] = file) in Hf.
  exists parts, ("file_" ++ h ++ ext).
  assert (Hsd : segments dir = (segments base ++ parts)%list)
    by (rewrite <- Hd; apply segments_path_join; exact Hplain).
  split; [exact Hsd | split; [| exact Hdepth]].
  rewrite <- Hf, segments_path_join, Hsd, <- app_assoc; [reflexivity |].
  constructor; [| constructor]. apply fileName_plain; assumption.
Qed.

Lemma created_file_depth_witness :
  random_in_unit Demo.host /\
  makeRandomDir Demo.host "/work/dist" 3 start
  = (Val DemoRun.dir, DemoRun.afterDir, [EMkdir DemoRun.dir]) /\
  makeRandomFile Demo.host DemoRun.dir 3 5 DemoRun.afterDir
  = DemoRun.fileRun /\
  exists parts name,
    segments DemoRun.dir = (segments "/work/dist" ++ parts)%list /\
    segments DemoRun.file = (segments "/work/dist" ++ parts ++ [name])%list /\
    1 <= Z.of_nat (List.length parts) <= Z.max 1 3.
Proof.
  split; [exact demo_random_in_unit |].
  split; [vm_compute; reflexivity |].
  split; [vm_compute; reflexivity |].
  apply (created_file_depth Demo.host demo_random_in_unit
           "/work/dist" 3 3 5 start DemoRun.dir DemoRun.afterDir
           [EMkdir DemoRun.dir] DemoRun.file
           (snd (fst DemoRun.fileRun)) (snd DemoRun.fileRun)).
  - vm_compute; reflexivity.
  - vm_compute; reflexivity.
Defined.

(** C5. The sanity step after parsing: a negative minimum length becomes
    0, and a maximum length below the minimum so obtained becomes equal to
    that minimum. *)
Theorem sanity_clamps_lengths (parsed : Options) :
  (minLen parsed < 0 -> minLen (sanity parsed) = 0) /\
  (maxLen parsed < minLen (sanity parsed) ->
   maxLen (sanity parsed) = minLen (sanity parsed)).
Proof.
  rewrite sanity_maxLen, sanity_minLen. split; lia.
Qed.

Lemma sanity_clamps_lengths_witness :
  (minLen Demo.reversed < 0 /\ minLen (sanity Demo.reversed) = 0) /\
  (maxLen Demo.reversed < minLen (sanity Demo.reversed) /\
   maxLen (sanity Demo.reversed) = minLen (sanity Demo.reversed)).
Proof.
  destruct (sanity_clamps_lengths Demo.reversed) as [Hmin Hmax].
  split; (split; [reflexivity |]); [apply Hmin | apply Hmax]; reflexivity.
Defined.

(** C6. With no filesystem error and a resolved count [n >= 0], the
    creation loop runs the path generator and then the file generator
    exactly [n] times and returns the [n] file paths in the order of
    creation; the run of [main] creates the base directory, performs these
    iterations, and reports these paths. *)
Theorem orchestrator_creates_count_files (host : Host) :
  fs_always_ok host ->
  (forall opts c,
     0 <= count opts ->
     exists items c',
       iterations host opts c items c' /\
       Z.of_nat (List.length items) = count opts /\
       create_loop host opts (Z.to_nat (count opts)) [] c
       = (Val (map it_file items), c', flat_map item_events items)) /\
  (forall argv c parsed,
     parseArgs host argv (DEFAULTS host) c = (Val parsed, c, []) ->
     0 <= count (sanity parsed) ->
     exists items c',
       iterations host (sanity parsed) (after_fs_call c) items c' /\
       Z.of_nat (List.length items) = count (sanity parsed) /\
       main host argv c
       = (Val tt, c',
          (EMkdir (outDir (sanity parsed)) :: flat_map item_events items ++
           summary_events host (sanity parsed) (map it_file items))%list)).
Proof.
  intros Hfs. split.
  - intros opts c Hn.
    destruct (create_loop_spec host Hfs opts (Z.to_nat (count opts)) [] c)
      as (items & c' & Hiter & Hlen & Hrun).
    exists items, c'. split; [exact Hiter | split; [lia | exact Hrun]].
  - intros argv c parsed Hparse Hn.
    destruct (main_run host Hfs argv c parsed Hparse)
      as (items & c' & Hiter & Hlen & Hrun).
    exists items, c'. split; [exact Hiter | split; [lia | exact Hrun]].
Qed.

Lemma orchestrator_creates_count_files_witness :
  fs_always_ok Demo.host /\
  0 <= count (set_count (DEFAULTS Demo.host) 2) /\
  exists items c',
    iterations Demo.host (set_count (DEFAULTS Demo.host) 2) start items c' /\
    Z.of_nat (List.length items) = 2 /\
    create_loop Demo.host (set_count (DEFAULTS Demo.host) 2) 2 [] start
    = (Val (map it_file items), c', flat_map item_events items).
Proof.
  split; [exact demo_fs_always_ok |]. split; [cbn; lia |].
  apply (proj1 (orchestrator_creates_count_files Demo.host demo_fs_always_ok)
           (set_count (DEFAULTS Demo.host) 2) start).
  cbn; lia.
Defined.

(** C7. Every file written by the file generator obeys the contract of its
    extension for the payload drawn in that very call.  The call draws, in
    this order and each from the cursor the previous draw leaves, the
    extension ([pick]), the name token ([rndHex(8)]), the length
    ([rndInt(minLen, maxLen)]) and the payload ([rndString(len)]), then for
    the three wrapped formats the token of the template ([rndHex(6)]).
    What it writes is, for [.html], the document shell around the whole
    payload; for [.js], the self-invoking function whose string literal is
    the whole payload; for [.css], the [body::after] rule whose [content]
    is the first 30 characters of the payload; for [.txt], the payload
    itself. *)
Theorem written_file_obeys_format (host : Host) :
  random_in_unit host ->
  forall dir minLen maxLen c file c' ev,
    makeRandomFile host dir minLen maxLen c = (Val file, c', ev) ->
    exists ext h len payload tag data c1 c2 c3 c4 c5,
      pick host exts c = (Val (Some ext), c1, []) /\
      In ext exts /\
      rndHex host 8 c1 = (Val h, c2, []) /\
      rndInt host minLen maxLen c2 = (Val len, c3, []) /\
      rndString host len c3 = (Val payload, c4, []) /\
      Z.of_nat (String.length payload) = Z.max 0 len /\
      allChars isLetter payload = true /\
      (ext <> ".txt" -> rndHex host 6 c4 = (Val tag, c5, [])) /\
      hexToken 6 tag /\
      file = path_join dir ["file_" ++ h ++ ext] /\
      ev = [EWrite file data] /\
      fileContract tag payload ext data.
Proof.
  intros Hrand dir minLen maxLen c file c' ev Hrun.
  destruct (makeRandomFile_draws host Hrand dir minLen maxLen c)
    as (ext & h & len & payload & k1 & k2 & k3 & k4 &
        Hpick & Hext & Hhex & _ & Hint & _ & Hstr & Hlen & Hall & Hemit).
  rewrite Hemit in Hrun.
  destruct (fs_writeFile_emit host dir (Some ext) h payload k4)
    as (data & k5 & _ & Hcontract & Hwrite).
  destruct (Hcontract ext eq_refl Hext) as (tag & k6 & Htag & Hdraw & Hfmt).
  rewrite Hwrite in Hrun. cbv zeta in Hrun.
  destruct (fs_ok host (fs_i k5)); [| discriminate].
  injection Hrun as Hf _ Hev.
  change (path_join dir ["file_" ++ h ++ ext] = file) in Hf.
  change ([EWrite (path_join dir ["file_" ++ h ++ ext]) data] = ev) in Hev.
  exists ext, h, len, payload, tag, data, k1, k2, k3, k4, k6.
  split; [exact Hpick |]. split; [exact Hext |]. split; [exact Hhex |].
  split; [exact Hint |]. split; [exact Hstr |]. split; [exact Hlen |].
  split; [exact Hall |]. split; [exact Hdraw |]. split; [exact Htag |].
  split; [symmetry; exact Hf |]. split; [rewrite <- Hf; symmetry; exact Hev |].
  exact Hfmt.
Qed.

Lemma written_file_obeys_format_witness :
  random_in_unit Demo.host /\
  (makeRandomFile Demo.host DemoFiles.dir 32 36 (mkCursor 0 0 0)
   = (Val "/work/dist/ab12cd/file_0b30557a.html", mkCursor 37 7 1,
      snd DemoFiles.htmlRun) /\
   exists ext tag payload data,
     In ext exts /\ allChars isLetter payload = true /\ hexToken 6 tag /\
     snd DemoFiles.htmlRun
     = [EWrite "/work/dist/ab12cd/file_0b30557a.html" data] /\
     fileContract tag payload ext data) /\
  (makeRandomFile Demo.host DemoFiles.dir 32 36 (mkCursor 2 0 0)
   = (Val "/work/dist/ab12cd/file_0b30557a.js", mkCursor 36 7 1,
      snd DemoFiles.jsRun) /\
   exists ext tag payload data,
     In ext exts /\ allChars isLetter payload = true /\ hexToken 6 tag /\
     snd DemoFiles.jsRun
     = [EWrite "/work/dist/ab12cd/file_0b30557a.js" data] /\
     fileContract tag payload ext data) /\
  (makeRandomFile Demo.host DemoFiles.dir 32 36 (mkCursor 1 0 0)
   = (Val "/work/dist/ab12cd/file_0b30557a.css", mkCursor 37 7 1,
      snd DemoFiles.cssRun) /\
   exists ext tag payload data,
     In ext exts /\ allChars isLetter payload = true /\ hexToken 6 tag /\
     snd DemoFiles.cssRun
     = [EWrite "/work/dist/ab12cd/file_0b30557a.css" data] /\
     fileContract tag payload ext data) /\
  (makeRandomFile Demo.host DemoFiles.dir 32 36 (mkCursor 4 0 0)
   = (Val "/work/dist/ab12cd/file_0b30557a.txt", mkCursor 40 4 1,
      snd DemoFiles.txtRun) /\
   exists ext tag payload data,
     In ext exts /\ allChars isLetter payload = true /\ hexToken 6 tag /\
     snd DemoFiles.txtRun
     = [EWrite "/work/dist/ab12cd/file_0b30557a.txt" data] /\
     fileContract tag payload ext data).
Proof.
  assert (Hhtml : makeRandomFile Demo.host DemoFiles.dir 32 36 (mkCursor 0 0 0)
                  = (Val "/work/dist/ab12cd/file_0b30557a.html",
                     mkCursor 37 7 1, snd DemoFiles.htmlRun))
    by (vm_compute; reflexivity).
  assert (Hjs : makeRandomFile Demo.host DemoFiles.dir 32 36 (mkCursor 2 0 0)
                = (Val "/work/dist/ab12cd/file_0b30557a.js",
                   mkCursor 36 7 1, snd DemoFiles.jsRun))
    by (vm_compute; reflexivity).
  assert (Hcss : makeRandomFile Demo.host DemoFiles.dir 32 36 (mkCursor 1 0 0)
                 = (Val "/work/dist/ab12cd/file_0b30557a.css",
                    mkCursor 37 7 1, snd DemoFiles.cssRun))
    by (vm_compute; reflexivity).
  assert (Htxt : makeRandomFile Demo.host DemoFiles.dir 32 36 (mkCursor 4 0 0)
                 = (Val "/work/dist/ab12cd/file_0b30557a.txt",
                    mkCursor 40 4 1, snd DemoFiles.txtRun))
    by (vm_compute; reflexivity).
  split; [exact demo_random_in_unit |].
  split; [split; [exact Hhtml |] | split; [split; [exact Hjs |] |
    split; [split; [exact Hcss |] | split; [exact Htxt |]]]].
  - destruct (written_file_obeys_format Demo.host demo_random_in_unit
                _ _ _ _ _ _ _ Hhtml)
      as (ext & h & len & payload & tag & data & c1 & c2 & c3 & c4 & c5 &
          _ & Hext & _ & _ & _ & _ & Hall & _ & Htag & _ & Hev & Hfmt).
    exists ext, tag, payload, data.
    split; [exact Hext | split; [exact Hall | split; [exact Htag |]]].
    split; [exact Hev | exact Hfmt].
  - destruct (written_file_obeys_format Demo.host demo_random_in_unit
                _ _ _ _ _ _ _ Hjs)
      as (ext & h & len & payload & tag & data & c1 & c2 & c3 & c4 & c5 &
          _ & Hext & _ & _ & _ & _ & Hall & _ & Htag & _ & Hev & Hfmt).
    exists ext, tag, payload, data.
    split; [exact Hext | split; [exact Hall | split; [exact Htag |]]].
    split; [exact Hev | exact Hfmt].
  - destruct (written_file_obeys_format Demo.host demo_random_in_unit
                _ _ _ _ _ _ _ Hcss)
      as (ext & h & len & payload & tag & data & c1 & c2 & c3 & c4 & c5 &
          _ & Hext & _ & _ & _ & _ & Hall & _ & Htag & _ & Hev & Hfmt).
    exists ext, tag, payload, data.
    split; [exact Hext | split; [exact Hall | split; [exact Htag |]]].
    split; [exact Hev | exact Hfmt].
  - destruct (written_file_obeys_format Demo.host demo_random_in_unit
                _ _ _ _ _ _ _ Htxt)
      as (ext & h & len & payload & tag & data & c1 & c2 & c3 & c4 & c5 &
          _ & Hext & _ & _ & _ & _ & Hall & _ & Htag & _ & Hev & Hfmt).
    exists ext, tag, payload, data.
    split; [exact Hext | split; [exact Hall | split; [exact Htag |]]].
    split; [exact Hev | exact Hfmt].
Defined.

(** C8, as the specification states it, fails: a help flag that directly
    follows a value-taking flag is consumed as the value of that flag.
    With the arguments [--count --help] the program does not print the
    usage text: the first thing it does is to create the base directory. *)
Lemma help_after_value_flag_is_consumed :
  In "--help" ["--count"; "--help"] /\
  hd_error (events (run Demo.host ["--count"; "--help"]))
  = Some (EMkdir "/work/dist") /\
  run Demo.host ["--count"; "--help"] <> mkOutcome 0 [ELog (usage Demo.host)].
Proof.
  split; [simpl; auto |]. split; [vm_compute; reflexivity |].
  intros H. apply (f_equal (fun r => hd_error (events r))) in H.
  vm_compute in H. discriminate H.
Qed.

(** C8, amended. If [--help] or [-h] appears among the arguments and is
    the first argument or follows an argument that is not one of the
    value-taking flags ([--count], [--min], [--max], [--out], [--depth]),
    the program prints the usage text and exits with code 0; it does
    nothing else: no directory and no file is created. *)
Theorem help_prints_usage_and_exits (host : Host) :
  forall pre h post,
    In h helpFlags ->
    ~ In (last pre EmptyString) valueFlags ->
    (forall c, main host (pre ++ h :: post) c
               = (Exited 0, c, [ELog (usage host)])) /\
    run host (pre ++ h :: post) = mkOutcome 0 [ELog (usage host)].
Proof.
  intros pre h post Hh Hlast.
  assert (Hmain : forall c, main host (pre ++ h :: post) c
                            = (Exited 0, c, [ELog (usage host)])).
  { intros c. apply main_help. apply parseArgs_help; assumption. }
  split; [exact Hmain |].
  unfold run. rewrite Hmain. reflexivity.
Qed.

Lemma help_prints_usage_and_exits_witness :
  In "-h" helpFlags /\
  ~ In (last ["--count"; "5"] EmptyString) valueFlags /\
  run Demo.host (["--count"; "5"] ++ "-h" :: ["--min"; "7"])
  = mkOutcome 0 [ELog (usage Demo.host)].
Proof.
  assert (Hh : In "-h" helpFlags) by (simpl; auto).
  assert (Hl : ~ In (last ["--count"; "5"] EmptyString) valueFlags)
    by (simpl; intros [H | [H | [H | [H | [H | []]]]]]; discriminate H).
  split; [exact Hh |]. split; [exact Hl |].
  exact (proj2 (help_prints_usage_and_exits Demo.host
                  ["--count"; "5"] "-h" ["--min"; "7"] Hh Hl)).
Defined.

(** C9. A numeric flag whose value token parses to the integer 0 behaves
    as with a token that is no number: every option keeps its value (so
    [--min 0] leaves the minimum length at 50).  Hence an effective minimum
    of 0 arises only from a negative parsed minimum, read from one of the
    arguments and clamped by the sanity step. *)
Theorem zero_value_keeps_default (host : Host) :
  (forall f tok rest o c,
     In f numericFlags -> JS.parseInt tok = Some 0 ->
     parseArgs host (f :: tok :: rest) o c = parseArgs host rest o c) /\
  (forall c,
     parseArgs host ["--min"; "0"] (DEFAULTS host) c
     = (Val (DEFAULTS host), c, []) /\
     minLen (sanity (DEFAULTS host)) = 50) /\
  (forall argv c parsed c' ev,
     parseArgs host argv (DEFAULTS host) c = (Val parsed, c', ev) ->
     minLen (sanity parsed) = 0 ->
     minLen parsed < 0 /\
     exists tok, In tok argv /\ JS.parseInt tok = Some (minLen parsed)).
Proof.
  split; [| split].
  - intros f tok rest o c Hf Htok.
    apply parseArgs_falsy_value; [assumption | right; assumption].
  - intros c. split; reflexivity.
  - intros argv c parsed c' ev Hparse Hzero.
    rewrite sanity_minLen in Hzero.
    destruct (parseArgs_minLen host argv _ _ _ _ _ Hparse)
      as [Hsame | (tok & Hin & Hp & Hnz)].
    + cbn [minLen DEFAULTS] in Hsame. lia.
    + split; [lia |]. exists tok. split; assumption.
Qed.

Lemma zero_value_keeps_default_witness :
  (In "--count" numericFlags /\ JS.parseInt "0" = Some 0 /\
   parseArgs Demo.host ["--count"; "0"; "--depth"; "2"] (DEFAULTS Demo.host) start
   = parseArgs Demo.host ["--depth"; "2"] (DEFAULTS Demo.host) start) /\
  (parseArgs Demo.host ["--min"; "-4"] (DEFAULTS Demo.host) start
   = (Val (set_minLen (DEFAULTS Demo.host) (-4)), start, []) /\
   minLen (sanity (set_minLen (DEFAULTS Demo.host) (-4))) = 0 /\
   minLen (set_minLen (DEFAULTS Demo.host) (-4)) < 0).
Proof.
  destruct (zero_value_keeps_default Demo.host) as (Hzero & _ & Hneg).
  split.
  - split; [simpl; auto |]. split; [reflexivity |].
    apply Hzero; [simpl; auto | reflexivity].
  - split; [reflexivity |]. split; [reflexivity |].
    apply (Hneg ["--min"; "-4"] start _ start []); reflexivity.
Defined.

(** C10. A numeric flag directly followed by another flag takes that flag
    as its value: the value is no number, so every option keeps its value,
    and the consumed flag is not processed as a flag.  With the arguments
    [--count --min 5] the options stay at their defaults: count 20 and
    minimum length 50. *)
Theorem flag_taken_as_value (host : Host) :
  (forall f g rest o c,
     In f numericFlags -> In g allFlags ->
     parseArgs host (f :: g :: rest) o c = parseArgs host rest o c) /\
  (forall c,
     parseArgs host ["--count"; "--min"; "5"] (DEFAULTS host) c
     = (Val (DEFAULTS host), c, []) /\
     count (DEFAULTS host) = 20 /\ minLen (DEFAULTS host) = 50).
Proof.
  split.
  - intros f g rest o c Hf Hg.
    apply parseArgs_falsy_value; [assumption | apply flag_is_falsyNumber; assumption].
  - intros c. repeat split.
Qed.

Lemma flag_taken_as_value_witness :
  In "--depth" numericFlags /\ In "-h" allFlags /\
  parseArgs Demo.host ["--depth"; "-h"; "--max"; "9"] (DEFAULTS Demo.host) start
  = parseArgs Demo.host ["--max"; "9"] (DEFAULTS Demo.host) start.
Proof.
  split; [simpl; auto |]. split; [simpl; auto 10 |].
  apply (proj1 (flag_taken_as_value Demo.host)); simpl; auto 10.
Defined.

(* ================================================================== *)
(** ** Further properties of option resolution *)
(* ================================================================== *)

Section MoreParsing.

Variable host : Host.

Lemma parseInt_some_truthy tok v :
  JS.parseInt tok = Some v -> JS.truthy_str tok = true.
Proof. destruct tok; [discriminate | reflexivity]. Qed.

Lemma orNum_value v d : v <> 0 -> JS.orNum (Some v) d = v.
Proof.
  intros Hv. cbn [JS.orNum]. destruct (v =? 0) eqn:E; [| reflexivity].
  apply Z.eqb_eq in E. contradiction.
Qed.

Lemma orNum_nonzero p d : d <> 0 -> JS.orNum p d <> 0.
Proof.
  intros Hd. destruct p as [v |]; cbn [JS.orNum]; [| exact Hd].
  destruct (v =? 0) eqn:E; [exact Hd | apply Z.eqb_neq; exact E].
Qed.

(** The dispatch looks at the argument and at the one after it only. *)
Lemma dispatch_head a b r1 r2 o :
  dispatch host a (b :: r1) o = dispatch host a (b :: r2) o.
Proof. reflexivity. Qed.

Lemma dispatch_no_value_flag_any a r1 r2 o1 o2 :
  ~ In a valueFlags -> dispatch host a r1 o1 = dispatch host a r2 o2.
Proof.
  intros Hn. simpl in Hn. unfold dispatch.
  rewrite (eqb_false_of_neq a "--count") by (intros ->; tauto).
  rewrite (eqb_false_of_neq a "--min") by (intros ->; tauto).
  rewrite (eqb_false_of_neq a "--max") by (intros ->; tauto).
  rewrite (eqb_false_of_neq a "--out") by (intros ->; tauto).
  rewrite (eqb_false_of_neq a "--depth") by (intros ->; tauto).
  reflexivity.
Qed.

Lemma dispatch_unrecognised a rest o :
  ~ In a allFlags -> dispatch host a rest o = Skip.
Proof.
  intros Hn. simpl in Hn. unfold dispatch.
  rewrite (eqb_false_of_neq a "--count") by (intros ->; tauto).
  rewrite (eqb_false_of_neq a "--min") by (intros ->; tauto).
  rewrite (eqb_false_of_neq a "--max") by (intros ->; tauto).
  rewrite (eqb_false_of_neq a "--out") by (intros ->; tauto).
  rewrite (eqb_false_of_neq a "--depth") by (intros ->; tauto).
  rewrite (eqb_false_of_neq a "--help") by (intros ->; tauto).
  rewrite (eqb_false_of_neq a "-h") by (intros ->; tauto).
  reflexivity.
Qed.

(** A value-taking flag that is the last argument does nothing. *)
Lemma parseArgs_lone_flag f o c :
  In f valueFlags -> parseArgs host [f] o c = (Val o, c, []).
Proof.
  simpl. intros [<- | [<- | [<- | [<- | [<- | []]]]]]; reflexivity.
Qed.

Lemma dispatch_keeps_nonzero a rest o o' :
  numbersNonZero o -> dispatch host a rest o = TakeValue o' ->
  numbersNonZero o'.
Proof.
  intros (Hc & Hmin & Hmax & Hd). unfold dispatch.
  repeat match goal with
         | |- context [if ?b then _ else _] => destruct b
         end;
    intros [= <-]; unfold numbersNonZero;
    cbn [count minLen maxLen maxDepth set_count set_minLen set_maxLen
         set_maxDepth set_outDir];
    auto using orNum_nonzero.
Qed.

Lemma parseArgs_keeps_nonzero argv :
  forall o c o' c' ev,
    numbersNonZero o ->
    parseArgs host argv o c = (Val o', c', ev) ->
    numbersNonZero o'.
Proof.
  induction argv as [| a rest IH1 IH2] using parseArgs_induction;
    intros o c o' c' ev Hnz.
  - intros [= <- _ _]. exact Hnz.
  - rewrite parseArgs_step. destruct (dispatch host a rest o) as [o1 | |] eqn:E.
    + apply IH2. exact (dispatch_keeps_nonzero _ _ _ _ Hnz E).
    + discriminate.
    + apply IH1. exact Hnz.
Qed.

Lemma sanity_fixed o : 0 <= minLen o <= maxLen o -> sanity o = o.
Proof.
  intros [H0 H1]. unfold sanity.
  destruct (minLen o <? 0) eqn:E1; [apply Z.ltb_lt in E1; lia |].
  destruct (maxLen o <? minLen o) eqn:E2; [apply Z.ltb_lt in E2; lia |].
  reflexivity.
Qed.

End MoreParsing.

(** X1. A value-taking flag followed by a usable value sets exactly its own
    option and the loop resumes after the value: a numeric flag takes the
    non-zero integer that [parseInt] reads from the token (also from a
    token with trailing text), and [--out] takes any non-empty token,
    resolved against the working directory. *)
Theorem value_flag_sets_its_option (host : Host) :
  (forall tok v rest o c,
     JS.parseInt tok = Some v -> v <> 0 ->
     parseArgs host ("--count" :: tok :: rest) o c
     = parseArgs host rest (set_count o v) c /\
     parseArgs host ("--min" :: tok :: rest) o c
     = parseArgs host rest (set_minLen o v) c /\
     parseArgs host ("--max" :: tok :: rest) o c
     = parseArgs host rest (set_maxLen o v) c /\
     parseArgs host ("--depth" :: tok :: rest) o c
     = parseArgs host rest (set_maxDepth o v) c) /\
  (forall d rest o c,
     JS.truthy_str d = true ->
     parseArgs host ("--out" :: d :: rest) o c
     = parseArgs host rest (set_outDir o (path_resolve host (cwd host) d)) c).
Proof.
  split.
  - intros tok v rest o c Hp Hv.
    pose proof (parseInt_some_truthy _ _ Hp) as Ht.
    repeat split;
      rewrite parseArgs_step; unfold dispatch;
      cbn [String.eqb Ascii.eqb Bool.eqb andb orb hasValue nextArg tl];
      rewrite Ht, Hp, (orNum_value _ _ Hv); reflexivity.
  - intros d rest o c Ht.
    rewrite parseArgs_step. unfold dispatch.
    cbn [String.eqb Ascii.eqb Bool.eqb andb orb hasValue nextArg tl].
    rewrite Ht. reflexivity.
Qed.

Lemma value_flag_sets_its_option_witness :
  (JS.parseInt "7px" = Some 7 /\ 7 <> 0 /\
   parseArgs Demo.host ["--depth"; "7px"] (DEFAULTS Demo.host) start
   = (Val (set_maxDepth (DEFAULTS Demo.host) 7), start, [])) /\
  (JS.truthy_str "--help" = true /\
   parseArgs Demo.host ["--out"; "--help"] (DEFAULTS Demo.host) start
   = (Val (set_outDir (DEFAULTS Demo.host) "/work/--help"), start, [])).
Proof.
  destruct (value_flag_sets_its_option Demo.host) as [Hnum Hout].
  split.
  - split; [reflexivity |]. split; [lia |].
    destruct (Hnum "7px" 7 [] (DEFAULTS Demo.host) start eq_refl ltac:(lia))
      as (_ & _ & _ & Hd).
    exact Hd.
  - split; [reflexivity |].
    exact (Hout "--help" [] (DEFAULTS Demo.host) start eq_refl).
Defined.

(** X2. A value-taking flag that is the last argument has no value and is
    ignored: appending it changes nothing, unless the argument before it is
    [--out] (which would take it as a directory). *)
Theorem trailing_value_flag_is_ignored (host : Host) :
  forall pre f o c,
    In f valueFlags ->
    last pre EmptyString <> "--out" ->
    parseArgs host (pre ++ [f]) o c = parseArgs host pre o c.
Proof.
  intros pre f o c Hf. revert o c.
  induction pre as [| a rest IH1 IH2] using parseArgs_induction;
    intros o c Hlast.
  - cbn [app]. rewrite (parseArgs_lone_flag host f o c Hf). reflexivity.
  - destruct rest as [| b rest'].
    + (* [a] is the argument before the appended flag *)
      cbn [app last] in *.
      destruct (in_dec string_dec a valueFlags) as [Ha | Ha].
      * assert (Hnum : In a numericFlags)
          by (simpl in Ha; destruct Ha as [Ha | Ha]; [congruence | exact Ha]).
        rewrite (parseArgs_falsy_value host a f [] o c Hnum).
        -- rewrite (parseArgs_lone_flag host a o c Ha). reflexivity.
        -- apply flag_is_falsyNumber. unfold allFlags. apply in_or_app. left.
           exact Hf.
      * rewrite (parseArgs_step host a [f]), (parseArgs_step host a []).
        rewrite (dispatch_no_value_flag_any host a [f] [] o o Ha).
        destruct (dispatch host a [] o); [reflexivity | reflexivity |].
        apply (parseArgs_lone_flag host f o c Hf).
    + cbn [app].
      rewrite (parseArgs_step host a (b :: rest' ++ [f])),
        (parseArgs_step host a (b :: rest')).
      rewrite (dispatch_head host a b (rest' ++ [f]) rest' o).
      destruct (dispatch host a (b :: rest') o) as [o1 | |].
      * cbn [tl]. cbn [tl] in IH2. apply IH2.
        destruct rest' as [| b' r']; [cbn; discriminate | exact Hlast].
      * reflexivity.
      * apply IH1. exact Hlast.
Qed.

Lemma trailing_value_flag_is_ignored_witness :
  In "--min" valueFlags /\
  last ["--count"; "5"] EmptyString <> "--out" /\
  parseArgs Demo.host (["--count"; "5"] ++ ["--min"]) (DEFAULTS Demo.host) start
  = parseArgs Demo.host ["--count"; "5"] (DEFAULTS Demo.host) start.
Proof.
  assert (Hf : In "--min" valueFlags) by (simpl; auto).
  assert (Hl : last ["--count"; "5"] EmptyString <> "--out")
    by (cbn; discriminate).
  split; [exact Hf |]. split; [exact Hl |].
  exact (trailing_value_flag_is_ignored Demo.host ["--count"; "5"] "--min"
           (DEFAULTS Demo.host) start Hf Hl).
Defined.

(** X3. Arguments that are none of the seven flags are stepped over: a
    command line without any flag leaves the options untouched, and the
    run is the run without arguments. *)
Theorem unrecognised_arguments_are_ignored (host : Host) :
  forall argv,
    (forall a, In a argv -> ~ In a allFlags) ->
    (forall o c, parseArgs host argv o c = (Val o, c, [])) /\
    (forall c, main host argv c = main host [] c).
Proof.
  intros argv Hno.
  assert (H : forall o c, parseArgs host argv o c = (Val o, c, [])).
  { induction argv as [| a rest IH]; intros o c; [reflexivity |].
    rewrite parseArgs_step, dispatch_unrecognised by (apply Hno; left; reflexivity).
    apply IH. intros x Hx. apply Hno. right. exact Hx. }
  split; [exact H |].
  intros c. unfold main, bind. rewrite H. reflexivity.
Qed.

Lemma unrecognised_arguments_are_ignored_witness :
  (forall a, In a ["12"; "--verbose"; "out"] -> ~ In a allFlags) /\
  parseArgs Demo.host ["12"; "--verbose"; "out"] (DEFAULTS Demo.host) start
  = (Val (DEFAULTS Demo.host), start, []).
Proof.
  assert (Hno : forall a, In a ["12"; "--verbose"; "out"] -> ~ In a allFlags).
  { intros a Ha Hf. simpl in Ha, Hf.
    destruct Ha as [<- | [<- | [<- | []]]];
      repeat (destruct Hf as [Hf | Hf]; [discriminate Hf |]); exact Hf. }
  split; [exact Hno |].
  exact (proj1 (unrecognised_arguments_are_ignored Demo.host _ Hno)
           (DEFAULTS Demo.host) start).
Defined.

(** X4. Whatever the arguments, none of the four numeric options is 0
    after parsing: a default is non-zero and [parseInt(..) || current]
    never stores 0. *)
Theorem parsed_numbers_are_never_zero (host : Host) :
  forall argv c parsed c' ev,
    parseArgs host argv (DEFAULTS host) c = (Val parsed, c', ev) ->
    numbersNonZero parsed.
Proof.
  intros argv c parsed c' ev H.
  apply (parseArgs_keeps_nonzero host argv (DEFAULTS host) c parsed c' ev);
    [| exact H].
  repeat split; discriminate.
Qed.

Lemma parsed_numbers_are_never_zero_witness :
  parseArgs Demo.host ["--count"; "0"; "--max"; "-0"; "--min"; "-3"]
    (DEFAULTS Demo.host) start
  = (Val (set_minLen (DEFAULTS Demo.host) (-3)), start, []) /\
  numbersNonZero (set_minLen (DEFAULTS Demo.host) (-3)).
Proof.
  split; [reflexivity |].
  apply (parsed_numbers_are_never_zero Demo.host
           ["--count"; "0"; "--max"; "-0"; "--min"; "-3"] start _ start []).
  reflexivity.
Defined.

(** X5. Option resolution has no effect on the world but the help text:
    for every argument list and every starting options it draws no random
    value and makes no filesystem call, and it either returns options
    without printing anything or prints the usage text once and exits with
    code 0.  It never throws and never exits with another code. *)
Theorem option_resolution_only_prints_help (host : Host) :
  forall argv o c,
    (exists o', parseArgs host argv o c = (Val o', c, [])) \/
    parseArgs host argv o c = (Exited 0, c, [ELog (usage host)]).
Proof.
  intros argv.
  induction argv as [| a rest IHone IHtwo] using parseArgs_induction;
    intros o c.
  - left. exists o. reflexivity.
  - rewrite parseArgs_step.
    destruct (dispatch host a rest o) as [o1 | |].
    + (* a flag took the next argument: two arguments further *)
      apply IHtwo.
    + (* a help flag in flag position *)
      right. reflexivity.
    + (* anything else: one argument further *)
      apply IHone.
Qed.

(** X6. The sanity step always yields [0 <= minLen <= maxLen], changes
    neither the output directory, nor the count, nor the depth, leaves
    options that are already ordered as they are, and is idempotent. *)
Theorem sanity_orders_lengths (o : Options) :
  0 <= minLen (sanity o) <= maxLen (sanity o) /\
  outDir (sanity o) = outDir o /\
  count (sanity o) = count o /\
  maxDepth (sanity o) = maxDepth o /\
  (0 <= minLen o <= maxLen o -> sanity o = o) /\
  sanity (sanity o) = sanity o.
Proof.
  pose proof (sanity_ordered o) as Hord.
  destruct (sanity_others o) as (Hout & Hcount & Hdepth).
  repeat (split; [assumption || lia |]).
  split; [apply sanity_fixed | apply sanity_fixed; exact Hord].
Qed.

Lemma sanity_orders_lengths_witness :
  0 <= minLen (mkOptions "/work/dist" 20 50 500 3)
    <= maxLen (mkOptions "/work/dist" 20 50 500 3) /\
  sanity (mkOptions "/work/dist" 20 50 500 3)
  = mkOptions "/work/dist" 20 50 500 3.
Proof.
  assert (H : 0 <= minLen (mkOptions "/work/dist" 20 50 500 3)
              <= maxLen (mkOptions "/work/dist" 20 50 500 3)) by (cbn; lia).
  split; [exact H |].
  destruct (sanity_orders_lengths (mkOptions "/work/dist" 20 50 500 3))
    as (_ & _ & _ & _ & Hfix & _).
  exact (Hfix H).
Defined.

(* ================================================================== *)
(** ** Further properties of the random helpers *)
(* ================================================================== *)

Section MoreGenerators.

Variable host : Host.

Lemma randomBytes_cursor n :
  forall c, exists bs,
    randomBytes host n c
    = (Val bs, mkCursor (rnd_i c) (byte_i c + n) (fs_i c), []) /\
    List.length bs = n.
Proof.
  induction n as [| n IH]; intros c.
  - exists []. split; [| reflexivity].
    cbn [randomBytes ret]. rewrite Nat.add_0_r. destruct c; reflexivity.
  - destruct (IH (mkCursor (rnd_i c) (S (byte_i c)) (fs_i c)))
      as (bs & Hrun & Hlen).
    exists (randomByte host (byte_i c) :: bs). split.
    + cbn [randomBytes]. erewrite bind_pure by reflexivity.
      erewrite bind_pure by exact Hrun.
      cbn [ret rnd_i byte_i fs_i]. rewrite Nat.add_succ_r. reflexivity.
    + cbn [List.length]. rewrite Hlen. reflexivity.
Qed.

Lemma countChar_app x a b :
  countChar x (a ++ b) = (countChar x a + countChar x b)%nat.
Proof.
  induction a as [| c a IH]; cbn [append countChar]; [reflexivity |].
  rewrite IH. lia.
Qed.

Lemma countChar_absent (p : ascii -> bool) x s :
  p x = false -> allChars p s = true -> countChar x s = O.
Proof.
  intros Hx. induction s as [| c r IH]; [reflexivity |].
  cbn [allChars countChar]. intros H. apply andb_true_iff in H.
  destruct H as [Hc Hr]. rewrite (IH Hr).
  destruct (Ascii.eqb_spec c x) as [-> | _]; [congruence | reflexivity].
Qed.

Section ValidRandom.

Hypothesis Hrand : random_in_unit host.

Lemma rndString_loop_cursor n :
  forall out c, exists s,
    rndString_loop host n out c
    = (Val (out ++ s), mkCursor (rnd_i c + n) (byte_i c) (fs_i c), []) /\
    String.length s = n /\ allChars isLetter s = true.
Proof.
  induction n as [| n IH]; intros out c.
  - exists EmptyString. rewrite str_app_nil_r, Nat.add_0_r.
    destruct c; repeat split.
  - cbn [rndString_loop].
    destruct (Hrand (rnd_i c)) as [H0 H1].
    pose proof (floor_scale _ (Z.of_nat (String.length letters)) H0 H1
                  ltac:(cbn; lia)) as Hk.
    assert (Hk' : 0 <= JS.floor (random host (rnd_i c) *
                                 inject_Z (Z.of_nat (String.length letters)))
                  < 52)
      by (change (Z.of_nat (String.length letters) - 1) with 51 in Hk; lia).
    destruct (charAt_letters _ Hk') as (ch & Hch & Hletter).
    destruct (IH (out ++ String ch EmptyString)
                (mkCursor (S (rnd_i c)) (byte_i c) (fs_i c)))
      as (s & Hrun & Hlen & Hall).
    exists (String ch s). split; [| split].
    + erewrite bind_pure by reflexivity. cbn [rnd_i].
      rewrite Hch, Hrun, str_app_assoc. cbn [rnd_i byte_i fs_i].
      rewrite Nat.add_succ_r. reflexivity.
    + cbn [String.length]. rewrite Hlen. reflexivity.
    + cbn [allChars]. rewrite Hletter, Hall. reflexivity.
Qed.

End ValidRandom.

End MoreGenerators.

(** X7. When both bounds are equal, [rndInt(m, m)] returns [m], whatever
    the random value, and draws exactly one random number. *)
Theorem rndInt_of_equal_bounds (host : Host) :
  random_in_unit host ->
  forall m c,
    rndInt host m m c
    = (Val m, mkCursor (S (rnd_i c)) (byte_i c) (fs_i c), []).
Proof.
  intros Hrand m c. rewrite rndInt_run.
  destruct (Hrand (rnd_i c)) as [H0 H1].
  pose proof (floor_scale _ (m - m + 1) H0 H1 ltac:(lia)) as Hk.
  replace (JS.floor (random host (rnd_i c) * inject_Z (m - m + 1)) + m)
    with m by lia.
  reflexivity.
Qed.

Lemma rndInt_of_equal_bounds_witness :
  random_in_unit Demo.host /\
  rndInt Demo.host 10 10 (mkCursor 1 0 0) = (Val 10, mkCursor 2 0 0, []).
Proof.
  split; [exact demo_random_in_unit |].
  exact (rndInt_of_equal_bounds Demo.host demo_random_in_unit 10 (mkCursor 1 0 0)).
Defined.

(** X8. [rndHex(len)] returns exactly [len] characters, all of them
    lower-case hexadecimal digits, for every [len] (odd ones included); it
    takes [ceil(len / 2)] bytes from the byte source and nothing else. *)
Theorem rndHex_length_and_alphabet (host : Host) :
  forall len c, exists h,
    rndHex host len c
    = (Val h, mkCursor (rnd_i c) (byte_i c + Nat.div (len + 1) 2) (fs_i c), [])
    /\ String.length h = len /\ allChars isHexChar h = true.
Proof.
  intros len c.
  destruct (randomBytes_cursor host (Nat.div (len + 1) 2) c) as (bs & Hrun & Hlen).
  destruct (toHex_spec bs) as [Hl Hc].
  exists (JS.slice0 len (toHex bs)). split; [| split].
  - unfold rndHex. erewrite bind_pure by exact Hrun. reflexivity.
  - rewrite slice0_length, Hl, Hlen.
    pose proof (Nat.div_mod_eq (len + 1) 2) as Hd.
    pose proof (Nat.mod_upper_bound (len + 1) 2 ltac:(discriminate)) as Hm.
    lia.
  - apply slice0_allChars. exact Hc.
Qed.

(** X9. [rndString(len)] returns [max(0, len)] characters, all of them
    ASCII letters, and draws exactly that many random numbers: a zero or
    negative length gives the empty string and draws none. *)
Theorem rndString_length_and_draws (host : Host) :
  random_in_unit host ->
  forall len c, exists s,
    rndString host len c
    = (Val s, mkCursor (rnd_i c + Z.to_nat len) (byte_i c) (fs_i c), []) /\
    Z.of_nat (String.length s) = Z.max 0 len /\
    allChars isLetter s = true.
Proof.
  intros Hrand len c.
  destruct (rndString_loop_cursor host Hrand (Z.to_nat len) EmptyString c)
    as (s & Hrun & Hlen & Hall).
  exists s. split; [exact Hrun | split; [lia | exact Hall]].
Qed.

Lemma rndString_length_and_draws_witness :
  random_in_unit Demo.host /\
  exists s,
    rndString Demo.host (-4) start = (Val s, mkCursor 0 0 0, []) /\
    Z.of_nat (String.length s) = 0 /\ allChars isLetter s = true.
Proof.
  split; [exact demo_random_in_unit |].
  exact (rndString_length_and_draws Demo.host demo_random_in_unit (-4) start).
Defined.

(** X10. [pick(arr)] on a non-empty array returns one of its elements
    (never [undefined]); on the empty array it returns [undefined]. *)
Theorem pick_returns_an_element (host : Host) :
  random_in_unit host ->
  forall (A : Type) (arr : list A) c,
    (arr <> [] ->
     exists x, In x arr /\
       pick host arr c
       = (Val (Some x), mkCursor (S (rnd_i c)) (byte_i c) (fs_i c), [])) /\
    (arr = [] ->
     pick host arr c
     = (Val None, mkCursor (S (rnd_i c)) (byte_i c) (fs_i c), [])).
Proof.
  intros Hrand A arr c.
  assert (Hrun : pick host arr c =
            (Val (JS.index arr
                    (JS.floor (random host (rnd_i c) *
                               inject_Z (Z.of_nat (List.length arr))))),
             mkCursor (S (rnd_i c)) (byte_i c) (fs_i c), []))
    by reflexivity.
  rewrite Hrun. split.
  - intros Hne.
    destruct (Hrand (rnd_i c)) as [H0 H1].
    assert (Hlen : 1 <= Z.of_nat (List.length arr))
      by (destruct arr; [congruence | cbn [List.length]; lia]).
    pose proof (floor_scale _ _ H0 H1 Hlen) as Hk.
    set (k := JS.floor _) in *. unfold JS.index.
    destruct (k <? 0) eqn:E; [apply Z.ltb_lt in E; lia |].
    destruct (nth_error arr (Z.to_nat k)) as [x |] eqn:Hn.
    + exists x. split; [exact (nth_error_In _ _ Hn) | reflexivity].
    + apply nth_error_None in Hn. lia.
  - intros ->. unfold JS.index.
    destruct (_ <? 0); [reflexivity |].
    destruct (Z.to_nat _); reflexivity.
Qed.

Lemma pick_returns_an_element_witness :
  random_in_unit Demo.host /\ exts <> [] /\
  exists x, In x exts /\
    pick Demo.host exts start = (Val (Some x), mkCursor 1 0 0, []).
Proof.
  assert (Hne : exts <> []) by discriminate.
  split; [exact demo_random_in_unit |]. split; [exact Hne |].
  exact (proj1 (pick_returns_an_element Demo.host demo_random_in_unit
                  string exts start) Hne).
Defined.

(** X11. The templates stay well formed around the payload: for a token of
    hexadecimal digits and a payload of letters, each of the three
    templates contains exactly two double quotes (the payload cannot close
    the string literal of the script or of the style rule), and the markup
    template contains exactly its own ten opening angle brackets. *)
Theorem templates_are_not_broken_by_payload :
  forall t payload,
    allChars isHexChar t = true ->
    allChars isLetter payload = true ->
    countChar dquote (html_template t payload) = 2%nat /\
    countChar dquote (js_template t payload) = 2%nat /\
    countChar dquote (css_template t payload) = 2%nat /\
    countChar "<" (html_template t payload) = 10%nat.
Proof.
  intros t payload Ht Hp.
  assert (Hq := fun s => countChar_absent isLetter dquote s eq_refl).
  assert (Hqt := countChar_absent isHexChar dquote t eq_refl Ht).
  assert (Hlt := countChar_absent isHexChar "<"%char t eq_refl Ht).
  assert (Hlp := countChar_absent isLetter "<"%char payload eq_refl Hp).
  assert (Hslice : countChar dquote (JS.slice0 30 payload) = O)
    by (apply Hq, slice0_allChars; exact Hp).
  unfold html_template, js_template, css_template.
  rewrite !countChar_app, Hqt, Hlt, Hlp, Hslice, (Hq payload Hp).
  repeat split; reflexivity.
Qed.

Lemma templates_are_not_broken_by_payload_witness :
  allChars isHexChar "0e3358" = true /\
  allChars isLetter "fPAk" = true /\
  countChar dquote (js_template "0e3358" "fPAk") = 2%nat.
Proof.
  split; [reflexivity |]. split; [reflexivity |].
  exact (proj1 (proj2 (templates_are_not_broken_by_payload
                         "0e3358" "fPAk" eq_refl eq_refl))).
Defined.

(* ================================================================== *)
(** ** Further properties of a whole run *)
(* ================================================================== *)

Section Runs.

Variable host : Host.

(** The path generator, whatever the random values and the filesystem. *)
Lemma makeRandomDir_outcome base maxDepth c :
  exists parts c1,
    Forall (hexToken 6) parts /\
    makeRandomDir host base maxDepth c =
    (if fs_ok host (fs_i c1)
     then (Val (path_join base parts), after_fs_call c1,
           [EMkdir (path_join base parts)])
     else (Thrown (MkdirFailed (path_join base parts)), after_fs_call c1, [])).
Proof.
  destruct (makeRandomDir_shape host base maxDepth c)
    as (parts & c1 & _ & Hall & Hrun).
  exists parts, c1. split; [exact Hall |].
  rewrite Hrun. unfold bind, fs_mkdir. rewrite fs_call_run.
  destruct (fs_ok host (fs_i c1)); reflexivity.
Qed.

Lemma fileName_plain_any h k :
  hexToken 8 h -> plainName ("file_" ++ h ++ JS.showStr (JS.index exts k)).
Proof.
  intros [_ Hc]. split; [reflexivity |].
  rewrite !allChars_app, (allChars_weaken _ _ _ hex_is_nameChar Hc).
  unfold JS.index. destruct (k <? 0); [reflexivity |].
  destruct (Z.to_nat k) as [| [| [| [| n]]]]; try reflexivity.
  destruct n; reflexivity.
Qed.

(** The file generator, whatever the random values and the filesystem. *)
Lemma makeRandomFile_outcome dir minLen maxLen c :
  exists name data c1,
    plainName name /\
    makeRandomFile host dir minLen maxLen c =
    (if fs_ok host (fs_i c1)
     then (Val (path_join dir [name]), after_fs_call c1,
           [EWrite (path_join dir [name]) data])
     else (Thrown (WriteFailed (path_join dir [name])), after_fs_call c1, [])).
Proof.
  assert (Hpick : pick host exts c =
            (Val (JS.index exts
                    (JS.floor (random host (rnd_i c) *
                               inject_Z (Z.of_nat (List.length exts))))),
             mkCursor (S (rnd_i c)) (byte_i c) (fs_i c), []))
    by reflexivity.
  set (ext := JS.index exts _) in Hpick.
  destruct (rndHex_spec host 8 (mkCursor (S (rnd_i c)) (byte_i c) (fs_i c)))
    as (h & c2 & Hhex & Htok).
  pose proof (rndInt_run host minLen maxLen c2) as Hint.
  set (len := JS.floor _ + minLen) in Hint.
  set (c3 := mkCursor _ _ _) in Hint.
  destruct (rndString_loop_total host (Z.to_nat len) EmptyString c3)
    as (content & c4 & Hstr).
  destruct (fs_writeFile_emit host dir ext h content c4)
    as (data & c5 & _ & _ & Hemit).
  exists ("file_" ++ h ++ JS.showStr ext), data, c5. split.
  - apply fileName_plain_any. exact Htok.
  - unfold makeRandomFile.
    rewrite (bind_pure _ _ _ _ _ Hpick).
    rewrite (bind_pure _ _ _ _ _ Hhex).
    rewrite (bind_pure _ _ _ _ _ Hint).
    rewrite (bind_pure _ _ _ _ _ Hstr).
    exact Hemit.
Qed.

Lemma fsUnder_self base : fsUnder base (EMkdir base).
Proof. exists []. rewrite app_nil_r. reflexivity. Qed.

Lemma fsUnder_isFsEvent base e : fsUnder base e -> isFsEvent e = true.
Proof. destruct e; cbn; intros H; try reflexivity; destruct H. Qed.

Lemma fsUnder_underBase base e : fsUnder base e -> underBase base e.
Proof. destruct e; cbn; auto. Qed.

Lemma summary_has_no_write opts files :
  filter isWrite (summary_events host opts files) = [].
Proof.
  unfold summary_events. cbn [filter isWrite].
  induction files as [| f r IH]; [reflexivity | exact IH].
Qed.

Lemma summary_underBase base opts files :
  Forall (underBase base) (summary_events host opts files).
Proof.
  unfold summary_events. constructor; [exact I |].
  induction files as [| f r IH]; constructor; [exact I | exact IH].
Qed.

(** The creation loop, whatever the random values and the filesystem:
    it returns after [n] writes or throws after fewer, and touches only
    paths under the base directory. *)
Lemma create_loop_outcome opts n :
  forall created c,
  exists r c' ev,
    create_loop host opts n created c = (r, c', ev) /\
    Forall (fsUnder (outDir opts)) ev /\
    match r with
    | Val files =>
        List.length (filter isWrite ev) = n /\
        List.length files = (List.length created + n)%nat
    | Thrown _ => (List.length (filter isWrite ev) < n)%nat
    | Exited _ => False
    end.
Proof.
  induction n as [| n IH]; intros created c.
  - exists (Val created), c, []. split; [reflexivity |].
    split; [constructor |]. cbn. split; [reflexivity | lia].
  - cbn [create_loop].
    destruct (makeRandomDir_outcome (outDir opts) (maxDepth opts) c)
      as (parts & c1 & Hparts & Hdir).
    assert (Hplain : Forall plainName parts)
      by (eapply Forall_impl; [| exact Hparts]; intros a; apply hexToken_plain).
    set (dir := path_join (outDir opts) parts) in *.
    assert (Hsd : segments dir = (segments (outDir opts) ++ parts)%list)
      by (apply segments_path_join; exact Hplain).
    destruct (fs_ok host (fs_i c1)).
    2:{ exists (Thrown (MkdirFailed dir)), (after_fs_call c1), [].
        split; [apply bind_thrown; exact Hdir |].
        split; [constructor | cbn; lia]. }
    destruct (makeRandomFile_outcome dir (minLen opts) (maxLen opts)
                (after_fs_call c1))
      as (name & data & c2 & Hname & Hfile).
    set (file := path_join dir [name]) in *.
    assert (Hsf : segments file
                  = (segments (outDir opts) ++ parts ++ [name])%list).
    { unfold file. rewrite segments_path_join by (constructor; [exact Hname | constructor]).
      rewrite Hsd, <- app_assoc. reflexivity. }
    assert (Hud : fsUnder (outDir opts) (EMkdir dir)) by (exists parts; exact Hsd).
    rewrite (bind_val _ _ _ _ _ _ Hdir).
    destruct (fs_ok host (fs_i c2)).
    2:{ rewrite (bind_thrown _ _ _ _ _ _ Hfile).
        exists (Thrown (WriteFailed file)), (after_fs_call c2), [EMkdir dir].
        split; [reflexivity |].
        split; [constructor; [exact Hud | constructor] | cbn; lia]. }
    rewrite (bind_val _ _ _ _ _ _ Hfile).
    destruct (IH (created ++ [file])%list (after_fs_call c2))
      as (r & c' & ev & Hrun & Hev & Hres).
    rewrite Hrun.
    exists r, c', (EMkdir dir :: EWrite file data :: ev).
    split; [reflexivity |].
    split.
    + constructor; [exact Hud |].
      constructor; [exists (parts ++ [name])%list; exact Hsf | exact Hev].
    + destruct r as [files | e | k]; cbn [filter isWrite List.length].
      * destruct Hres as [Hw Hl]. split; [rewrite Hw; reflexivity |].
        rewrite List.length_app in Hl. cbn [List.length] in Hl. lia.
      * lia.
      * exact Hres.
Qed.

(** A whole run that is not a help request. *)
Lemma main_outcome argv c parsed :
  parseArgs host argv (DEFAULTS host) c = (Val parsed, c, []) ->
  exists r c' ev,
    main host argv c = (r, c', ev) /\
    match r with
    | Val _ =>
        exists fsev files,
          ev = (fsev ++ summary_events host (sanity parsed) files)%list /\
          Forall (fsUnder (outDir (sanity parsed))) fsev /\
          List.length (filter isWrite fsev) = Z.to_nat (count parsed)
    | Thrown _ =>
        Forall (fsUnder (outDir (sanity parsed))) ev /\
        (List.length (filter isWrite ev) <= Z.to_nat (count parsed))%nat
    | Exited _ => False
    end.
Proof.
  intros Hparse.
  destruct (sanity_others parsed) as (_ & Hcount & _).
  unfold main. rewrite (bind_pure _ _ _ _ _ Hparse).
  set (opts := sanity parsed) in *.
  unfold bind at 1. unfold fs_mkdir. rewrite fs_call_run.
  destruct (fs_ok host (fs_i c)).
  2:{ exists (Thrown (MkdirFailed (outDir opts))),
        (mkCursor (rnd_i c) (byte_i c) (S (fs_i c))), [].
      split; [reflexivity |]. split; [constructor | cbn; lia]. }
  destruct (create_loop_outcome opts (Z.to_nat (count opts)) []
              (mkCursor (rnd_i c) (byte_i c) (S (fs_i c))))
    as (r & c' & ev & Hrun & Hev & Hres).
  destruct r as [files | e | k]; [| | destruct Hres].
  - rewrite (bind_val _ _ _ _ _ _ Hrun).
    erewrite bind_val by reflexivity. rewrite report_run.
    eexists. eexists. eexists. split; [reflexivity |].
    exists (EMkdir (outDir opts) :: ev), files.
    split; [reflexivity |].
    split; [constructor; [apply fsUnder_self | exact Hev] |].
    cbn [filter isWrite]. rewrite <- Hcount. exact (proj1 Hres).
  - rewrite (bind_thrown _ _ _ _ _ _ Hrun).
    eexists. eexists. eexists. split; [reflexivity |].
    split; [constructor; [apply fsUnder_self | exact Hev] |].
    cbn [app filter isWrite]. rewrite <- Hcount. lia.
Qed.

End Runs.

Lemma fsUnder_forallb base ev :
  Forall (fsUnder base) ev -> forallb isFsEvent ev = true.
Proof.
  induction 1 as [| e ev He _ IH]; [reflexivity |].
  cbn [forallb]. rewrite (fsUnder_isFsEvent _ _ He), IH. reflexivity.
Qed.

Lemma fsUnder_no_error base ev :
  Forall (fsUnder base) ev -> existsb isErrorEvent ev = false.
Proof.
  induction 1 as [| e ev He _ IH]; [reflexivity |].
  cbn [existsb]. rewrite IH. destruct e; cbn in *; try reflexivity.
  destruct He.
Qed.

Lemma summary_no_error host opts files :
  existsb isErrorEvent (summary_events host opts files) = false.
Proof.
  unfold summary_events. cbn [existsb isErrorEvent orb].
  induction files as [| f r IH]; [reflexivity | exact IH].
Qed.

(** X12. A count that is not positive (after parsing it can only be
    negative) runs the loop zero times: if the base directory can be
    created, the run creates it, prints [Created 0 files under <outDir>]
    and nothing else, and ends normally. *)
Theorem nonpositive_count_creates_no_file (host : Host) :
  forall argv c parsed,
    parseArgs host argv (DEFAULTS host) c = (Val parsed, c, []) ->
    count parsed <= 0 ->
    fs_ok host (fs_i c) = true ->
    main host argv c
    = (Val tt, after_fs_call c,
       [EMkdir (outDir (sanity parsed));
        ELog ("Created 0 files under " ++ outDir (sanity parsed))]).
Proof.
  intros argv c parsed Hparse Hcount Hfs.
  destruct (sanity_others parsed) as (_ & Hc & _).
  unfold main. rewrite (bind_pure _ _ _ _ _ Hparse).
  assert (Hn : Z.to_nat (count (sanity parsed)) = O) by lia.
  rewrite Hn. unfold bind, fs_mkdir. rewrite fs_call_run, Hfs. reflexivity.
Qed.

Lemma nonpositive_count_creates_no_file_witness :
  parseArgs Demo.host ["--count"; "-3"] (DEFAULTS Demo.host) start
  = (Val (set_count (DEFAULTS Demo.host) (-3)), start, []) /\
  count (set_count (DEFAULTS Demo.host) (-3)) <= 0 /\
  fs_ok Demo.host (fs_i start) = true /\
  main Demo.host ["--count"; "-3"] start
  = (Val tt, after_fs_call start,
     [EMkdir "/work/dist"; ELog "Created 0 files under /work/dist"]).
Proof.
  split; [reflexivity |]. split; [cbn; lia |]. split; [reflexivity |].
  apply (nonpositive_count_creates_no_file Demo.host ["--count"; "-3"] start
           (set_count (DEFAULTS Demo.host) (-3))).
  - reflexivity.
  - cbn; lia.
  - reflexivity.
Defined.

(** X14. The process ends in one of two ways.  Either it exits with code 0
    and no error was printed; or it exits with code 1, and then what it did
    was filesystem calls only, followed by the one error message: a failed
    run prints no summary and no list of the files already written. *)
Theorem run_exits_zero_or_reports_one_error (host : Host) :
  forall argv,
    (exit_code (run host argv) = 0 /\
     existsb isErrorEvent (events (run host argv)) = false) \/
    (exit_code (run host argv) = 1 /\
     exists evs e,
       events (run host argv) = (evs ++ [EError e])%list /\
       forallb isFsEvent evs = true).
Proof.
  intros argv. unfold run.
  destruct (parseArgs_outcome host argv (DEFAULTS host) start)
    as [[parsed Hparse] | Hhelp].
  - destruct (main_outcome host argv start parsed Hparse)
      as (r & c' & ev & Hrun & Hres).
    rewrite Hrun. destruct r as [u | e | k]; [| | destruct Hres].
    + left. split; [reflexivity |]. cbn [events].
      destruct Hres as (fsev & files & -> & Hfs & _).
      rewrite existsb_app, (fsUnder_no_error _ _ Hfs), summary_no_error.
      reflexivity.
    + right. split; [reflexivity |]. exists ev, e.
      split; [reflexivity |]. exact (fsUnder_forallb _ _ (proj1 Hres)).
  - left. rewrite (main_help host argv start Hhelp). split; reflexivity.
Qed.

(** X15. If the base directory cannot be created, the run stops there:
    the process prints the error of that [mkdir], which names the resolved
    output directory, exits with code 1, and has created nothing. *)
Theorem unwritable_base_directory_aborts (host : Host) :
  forall argv parsed,
    parseArgs host argv (DEFAULTS host) start = (Val parsed, start, []) ->
    fs_ok host O = false ->
    run host argv
    = mkOutcome 1 [EError (MkdirFailed (outDir (sanity parsed)))].
Proof.
  intros argv parsed Hparse Hfs.
  unfold run, main. rewrite (bind_pure _ _ _ _ _ Hparse).
  unfold bind, fs_mkdir. rewrite fs_call_run. cbn [fs_i start].
  rewrite Hfs. reflexivity.
Qed.

Lemma unwritable_base_directory_aborts_witness :
  parseArgs Demo.readonly ["--out"; "/srv/www"] (DEFAULTS Demo.readonly) start
  = (Val (set_outDir (DEFAULTS Demo.readonly) "/srv/www"), start, []) /\
  fs_ok Demo.readonly O = false /\
  run Demo.readonly ["--out"; "/srv/www"]
  = mkOutcome 1 [EError (MkdirFailed "/srv/www")].
Proof.
  split; [reflexivity |]. split; [reflexivity |].
  apply (unwritable_base_directory_aborts Demo.readonly ["--out"; "/srv/www"]
           (set_outDir (DEFAULTS Demo.readonly) "/srv/www")); reflexivity.
Defined.

(** X16. The program never touches a path outside the output directory:
    in every run, failed or not and whatever the random values, the path of
    every [mkdir] and of every [writeFile] has the components of the
    resolved output directory as a prefix of its own. *)
Theorem every_path_is_under_the_output_directory (host : Host) :
  forall argv c parsed r c' ev,
    parseArgs host argv (DEFAULTS host) c = (Val parsed, c, []) ->
    main host argv c = (r, c', ev) ->
    Forall (underBase (outDir (sanity parsed))) ev.
Proof.
  intros argv c parsed r c' ev Hparse Hmain.
  destruct (main_outcome host argv c parsed Hparse)
    as (r0 & c0 & ev0 & Hrun & Hres).
  rewrite Hrun in Hmain. injection Hmain as <- <- <-.
  destruct r0 as [u | e | k]; [| | destruct Hres].
  - destruct Hres as (fsev & files & -> & Hfs & _).
    apply Forall_app. split; [| apply summary_underBase].
    eapply Forall_impl; [| exact Hfs]. apply fsUnder_underBase.
  - eapply Forall_impl; [| exact (proj1 Hres)]. apply fsUnder_underBase.
Qed.

Lemma every_path_is_under_the_output_directory_witness :
  parseArgs Demo.host DemoMain.argv (DEFAULTS Demo.host) start
  = (Val DemoMain.parsed, start, []) /\
  main Demo.host DemoMain.argv start = DemoMain.mainRun /\
  Forall (underBase (outDir (sanity DemoMain.parsed))) (snd DemoMain.mainRun).
Proof.
  split; [reflexivity |]. split; [vm_compute; reflexivity |].
  apply (every_path_is_under_the_output_directory Demo.host DemoMain.argv start
           DemoMain.parsed (fst (fst DemoMain.mainRun))
           (snd (fst DemoMain.mainRun)) (snd DemoMain.mainRun)).
  - reflexivity.
  - vm_compute; reflexivity.
Defined.

(** X17. The program never writes more files than the resolved count: in
    every run the number of [writeFile] calls is at most [count] (none for
    a negative count), and a run that ends normally has made exactly that
    many. *)
Theorem never_more_files_than_count (host : Host) :
  forall argv c parsed r c' ev,
    parseArgs host argv (DEFAULTS host) c = (Val parsed, c, []) ->
    main host argv c = (r, c', ev) ->
    (List.length (filter isWrite ev) <= Z.to_nat (count parsed))%nat /\
    (forall u, r = Val u ->
               List.length (filter isWrite ev) = Z.to_nat (count parsed)).
Proof.
  intros argv c parsed r c' ev Hparse Hmain.
  destruct (main_outcome host argv c parsed Hparse)
    as (r0 & c0 & ev0 & Hrun & Hres).
  rewrite Hrun in Hmain. injection Hmain as <- <- <-.
  destruct r0 as [u | e | k]; [| | destruct Hres].
  - destruct Hres as (fsev & files & -> & _ & Hw).
    rewrite filter_app, summary_has_no_write, app_nil_r, Hw.
    split; [lia | reflexivity].
  - split; [exact (proj2 Hres) | discriminate].
Qed.

Lemma never_more_files_than_count_witness :
  parseArgs Demo.host DemoMain.argv (DEFAULTS Demo.host) start
  = (Val DemoMain.parsed, start, []) /\
  main Demo.host DemoMain.argv start = DemoMain.mainRun /\
  (List.length (filter isWrite (snd DemoMain.mainRun))
   <= Z.to_nat (count DemoMain.parsed))%nat.
Proof.
  split; [reflexivity |]. split; [vm_compute; reflexivity |].
  apply (never_more_files_than_count Demo.host DemoMain.argv start
           DemoMain.parsed (fst (fst DemoMain.mainRun))
           (snd (fst DemoMain.mainRun)) (snd DemoMain.mainRun)).
  - reflexivity.
  - vm_compute; reflexivity.
Defined.
